(** * drag-drop: the project store, its notification pass and the drag protocol

    A shallow embedding of [src/state/project-state.ts] (class [ProjectState])
    and of the drag-and-drop handlers of [ProjectItem] and [ProjectList].

    JavaScript objects are mutable and shared by reference.  The store hands
    the array [this.projects.slice()] to arbitrary callbacks, so the model
    keeps an explicit heap: [Project] objects and [Project[]] arrays are
    addressed, and a listener is a small program that can write to what it
    was given and call back into the store. *)

From Stdlib Require Import ZArith Ascii String List Bool Arith Lia.
From Stdlib Require QArith.
From stdpp Require Import base option list strings.
Import ListNotations.

Local Open Scope string_scope.
Local Open Scope nat_scope.
Local Open Scope list_scope.

(** ** Project type *)

Module State.

(** [enum ProjectStatus { ACTIVE, FINISHED }] *)
Inductive ProjectStatus : Set :=
| ACTIVE
| FINISHED.

#[export] Instance ProjectStatus_eq_dec : EqDecision ProjectStatus.
Proof. solve_decision. Defined.

(** A JavaScript [number].  The store only stores [people] and passes it on;
    it never computes with it, so an integer carrier is enough. *)
Definition number : Set := Z.

(** [class Project { constructor(public id, public title, public description,
    public people, public status) {} }] *)
Record Project : Set := mkProject {
  id : string;
  title : string;
  description : string;
  people : number;
  status : ProjectStatus
}.

(** [project.status = newStatus] on one object. *)
Definition set_status (s : ProjectStatus) (p : Project) : Project :=
  mkProject (id p) (title p) (description p) (people p) s.

(** ** Heap addresses

    [ref] is the address of a [Project] object, [aref] the address of a
    [Project[]] array.  Array address [0] is the array created by the field
    initialiser [private projects: Project[] = []]; every later array
    comes from [slice()]. *)
Abbreviation ref := nat (only parsing).
Abbreviation aref := nat (only parsing).

(** ** Listeners

    [type Listener<T> = (items: T[]) => void].  A callback is an arbitrary
    function of the environment; the model gives it a name (its function
    identity) and a body made of the effects such a callback has on the store
    and on what the store handed to it:
    - [ItemsWrite f]: any in-place change of the received array
      ([items.push(..)], [items.pop()], [items[i] = ..], [items.length = 0]);
    - [ItemWrite i f]: any field write on the i-th element of the received
      array ([const p = items[i]; if (p) p.status = ..]);
    - [CallAddListener]: [projectState.addListener(fn)];
    - [CallAddProject]: [projectState.addProject(t, d, p)];
    - [CallMoveProject]: [projectState.moveProject(id, s)]. *)
#[warnings="-register-all"]
Inductive Cmd : Type :=
| ItemsWrite (f : list ref -> list ref)
| ItemWrite (i : nat) (f : Project -> Project)
| CallAddListener (fn_name : nat) (fn_body : list Cmd)
| CallAddProject (t d : string) (p : number)
| CallMoveProject (projectId : string) (newStatus : ProjectStatus).

Record Listener : Type := mkListener {
  name : nat;
  body : list Cmd
}.

(** ** Observations

    A ghost trace of the listener calls: which function was called, with
    which array, and what that array held when it was handed over. *)
Inductive Event : Set :=
| Invoked (fn_name : nat) (items : aref) (contents : list ref).

(** ** The store and the heap it lives in *)
Record World : Type := mkWorld {
  objs : list Project;          (* the Project objects, by address *)
  projects : list ref;          (* array 0: [this.projects] *)
  snapshots : list (list ref);  (* arrays 1, 2, ...: results of [slice()] *)
  listeners : list Listener;    (* [this.listeners] *)
  Math_random : nat -> string;  (* what the n-th [Math.random().toString()] returns *)
  draws : nat;                  (* number of [Math.random()] calls so far *)
  trace : list Event
}.

(** The state right after [ProjectState.getInstance()] created the instance. *)
Definition getInstance (rnd : nat -> string) : World :=
  mkWorld [] [] [] [] rnd 0 [].

Definition arr_get (w : World) (a : aref) : list ref :=
  match a with
  | 0 => projects w
  | S n => default [] (snapshots w !! n)
  end.

Definition arr_write (a : aref) (f : list ref -> list ref) (w : World) : World :=
  match a with
  | 0 => mkWorld (objs w) (f (projects w)) (snapshots w) (listeners w)
                 (Math_random w) (draws w) (trace w)
  | S n => mkWorld (objs w) (projects w) (alter f n (snapshots w)) (listeners w)
                   (Math_random w) (draws w) (trace w)
  end.

(** [items[i].field = v]: follows the reference stored in the array. *)
Definition obj_write (a : aref) (i : nat) (f : Project -> Project) (w : World) : World :=
  match arr_get w a !! i with
  | Some r => mkWorld (alter f r (objs w)) (projects w) (snapshots w) (listeners w)
                      (Math_random w) (draws w) (trace w)
  | None => w
  end.

(** [this.projects.slice()]: a new array with the same elements. *)
Definition slice (w : World) : aref * World :=
  (S (length (snapshots w)),
   mkWorld (objs w) (projects w) (snapshots w ++ [projects w]) (listeners w)
           (Math_random w) (draws w) (trace w)).

Definition log (e : Event) (w : World) : World :=
  mkWorld (objs w) (projects w) (snapshots w) (listeners w)
          (Math_random w) (draws w) (trace w ++ [e]).

(** ** class ProjectState *)

(** [addListener(listenerFn) { this.listeners.push(listenerFn); }] *)
Definition addListener (listenerFn : Listener) (w : World) : World :=
  mkWorld (objs w) (projects w) (snapshots w) (listeners w ++ [listenerFn])
          (Math_random w) (draws w) (trace w).

(** [new Project(Math.random().toString(), title, description, people,
    ProjectStatus.ACTIVE)] followed by [this.projects.push(newProject)]. *)
Definition push_new_project (title description : string) (people : number)
    (w : World) : World :=
  let newProject :=
    mkProject (Math_random w (draws w)) title description people ACTIVE in
  mkWorld (objs w ++ [newProject]) (projects w ++ [length (objs w)])
          (snapshots w) (listeners w) (Math_random w) (S (draws w)) (trace w).

(** [prj => prj.id === projectId].  The elements of [this.projects] are the
    objects [addProject] pushed, so the reference is always allocated. *)
Definition has_id (w : World) (projectId : string) (r : ref) : bool :=
  match objs w !! r with
  | Some prj => String.eqb (id prj) projectId
  | None => false
  end.

(** [project.status = newStatus] *)
Definition write_status (r : ref) (newStatus : ProjectStatus) (w : World) : World :=
  mkWorld (alter (set_status newStatus) r (objs w)) (projects w) (snapshots w)
          (listeners w) (Math_random w) (draws w) (trace w).

(** The methods call each other through the callbacks: [updateListeners]
    runs listener bodies, and a body may call [addProject] or [moveProject],
    which call [updateListeners] again.  The methods are therefore written
    against the notification pass they call, and the knot is tied by a step
    budget below; running out of it is [None]. *)
Section Methods.
Variable updateListeners : World -> option World.

Definition addProject_with (title description : string) (people : number)
    (w : World) : option World :=
  updateListeners (push_new_project title description people w).

(** [find] yields the reference [r] of the first match and [project] is the
    object behind it; the inner [None] cannot occur, [has_id] being true only
    of allocated objects. *)
Definition moveProject_with (projectId : string) (newStatus : ProjectStatus)
    (w : World) : option World :=
  match List.find (has_id w projectId) (projects w) with
  | Some r =>
      match objs w !! r with
      | Some project =>
          if decide (status project = newStatus) then Some w
          else updateListeners (write_status r newStatus w)
      | None => Some w
      end
  | None => Some w
  end.

(** The body of one callback, called with the array at [items]. *)
Fixpoint run_body (items : aref) (cs : list Cmd) (w : World) : option World :=
  match cs with
  | [] => Some w
  | c :: rest =>
      match
        match c with
        | ItemsWrite f => Some (arr_write items f w)
        | ItemWrite i f => Some (obj_write items i f w)
        | CallAddListener n b => Some (addListener (mkListener n b) w)
        | CallAddProject t d p => addProject_with t d p w
        | CallMoveProject i s => moveProject_with i s w
        end
      with
      | Some w' => run_body items rest w'
      | None => None
      end
  end.
End Methods.

(** [for (const listenerFn of this.listeners) listenerFn(this.projects.slice())].
    The array iterator keeps an index and compares it with the current length
    of [this.listeners] before every step. *)
Fixpoint updateListeners_from (fuel : nat) (i : nat) (w : World) : option World :=
  match fuel with
  | 0 => None
  | S fuel' =>
      match listeners w !! i with
      | None => Some w
      | Some listenerFn =>
          let '(items, w1) := slice w in
          let w2 := log (Invoked (name listenerFn) items (arr_get w1 items)) w1 in
          match run_body (updateListeners_from fuel' 0) items (body listenerFn) w2 with
          | Some w3 => updateListeners_from fuel' (S i) w3
          | None => None
          end
      end
  end.

Definition updateListeners (fuel : nat) (w : World) : option World :=
  updateListeners_from fuel 0 w.

Definition addProject (fuel : nat) (title description : string) (people : number)
    (w : World) : option World :=
  addProject_with (updateListeners fuel) title description people w.

Definition moveProject (fuel : nat) (projectId : string) (newStatus : ProjectStatus)
    (w : World) : option World :=
  moveProject_with (updateListeners fuel) projectId newStatus w.

(** ** Classes of callbacks

    What a theorem needs to know about the callbacks registered in a store
    is said with these decidable predicates. *)

(** No call to [addProject] or [moveProject], neither in the body nor in the
    body of a callback it registers. *)
Fixpoint nonreentrant (c : Cmd) : bool :=
  match c with
  | ItemsWrite _ | ItemWrite _ _ => true
  | CallAddListener _ b => forallb nonreentrant b
  | CallAddProject _ _ _ | CallMoveProject _ _ => false
  end.

Definition nonreentrant_listener (l : Listener) : bool :=
  forallb nonreentrant (body l).

Definition nonreentrant_store (w : World) : bool :=
  forallb nonreentrant_listener (listeners w).

(** A plain observer: all it ever writes to is the array it received. *)
Definition passive (c : Cmd) : bool :=
  match c with
  | ItemsWrite _ => true
  | _ => false
  end.

Definition passive_listener (l : Listener) : bool :=
  forallb passive (body l).

Definition passive_store (w : World) : bool :=
  forallb passive_listener (listeners w).

(** The callbacks a body registers, in program order. *)
Fixpoint registers (cs : list Cmd) : list Listener :=
  match cs with
  | [] => []
  | CallAddListener n b :: rest => mkListener n b :: registers rest
  | _ :: rest => registers rest
  end.

(** Number of callback invocations a callback stands for in one pass:
    itself and, in turn, every callback it registers. *)
Fixpoint weight (c : Cmd) : nat :=
  match c with
  | CallAddListener _ b => S (list_sum (map weight b))
  | _ => 0
  end.

Definition listener_weight (l : Listener) : nat :=
  S (list_sum (map weight (body l))).

Definition pass_weight (ls : list Listener) : nat :=
  list_sum (map listener_weight ls).

(** The effect of a body that does not re-enter the store. *)
Fixpoint apply_body (items : aref) (cs : list Cmd) (w : World) : World :=
  match cs with
  | [] => w
  | c :: rest =>
      apply_body items rest
        match c with
        | ItemsWrite f => arr_write items f w
        | ItemWrite i f => obj_write items i f w
        | CallAddListener n b => addListener (mkListener n b) w
        | _ => w
        end
  end.

(** The state in which the callback at index [i] finds the world, and the
    one it leaves. *)
Definition delivered (l : Listener) (w : World) : World :=
  log (Invoked (name l) (fst (slice w)) (projects w)) (snd (slice w)).

Definition after_listener (l : Listener) (w : World) : World :=
  apply_body (fst (slice w)) (body l) (delivered l w).

(** A notification pass over callbacks that do not re-enter the store,
    from iterator index [i] on. *)
Inductive pass : nat -> World -> World -> Prop :=
| pass_done i w :
    listeners w !! i = None -> pass i w w
| pass_step i w l w' :
    listeners w !! i = Some l ->
    pass (S i) (after_listener l w) w' ->
    pass i w w'.

(** ** Views of a state *)

(** [this.projects.find(prj => prj.id === projectId)] as the object found. *)
Definition find_project (w : World) (projectId : string) : option Project :=
  match List.find (has_id w projectId) (projects w) with
  | Some r => objs w !! r
  | None => None
  end.

(** The task sequence as values. *)
Definition tasks (w : World) : list Project :=
  omap (fun r => objs w !! r) (projects w).

Definition ids (w : World) : list string := map id (tasks w).

(** Every element of [this.projects] is an allocated object. *)
Definition wf (w : World) : Prop :=
  Forall (fun r => r < length (objs w)) (projects w).

Definition event_name (e : Event) : nat :=
  match e with Invoked n _ _ => n end.

(** What a call added to the trace. *)
Definition new_events (w w' : World) : list Event :=
  drop (length (trace w)) (trace w').

(** A run of [addProject] calls. *)
Fixpoint addProjects (fuel : nat) (calls : list (string * string * number))
    (w : World) : option World :=
  match calls with
  | [] => Some w
  | (t, d, p) :: rest =>
      match addProject fuel t d p w with
      | Some w' => addProjects fuel rest w'
      | None => None
      end
  end.

(** The event the [k]-th callback invoked by a pass started in [w] leaves
    in the trace. *)
Definition invocation (w : World) (k : nat) (l : Listener) : Event :=
  Invoked (name l) (S (length (snapshots w) + k)) (projects w).


(** The part of the receiving array a passive body ends up with. *)
Fixpoint own_writes (cs : list Cmd) (arr : list ref) : list ref :=
  match cs with
  | [] => arr
  | ItemsWrite f :: rest => own_writes rest (f arr)
  | _ :: rest => own_writes rest arr
  end.

(** The names of the callbacks a call invoked. *)
Definition invoked (w w' : World) : list nat :=
  map event_name (new_events w w').


(** Claim C4 as the specification words it, for the pass of one
    [addProject] call: whatever the callbacks do with the snapshots they
    receive, the tasks of the store stay as the store made them. *)
Definition snapshots_protect_tasks (fuel : nat) (t d : string) (p : number)
    (w : World) : Prop :=
  forall w', addProject fuel t d p w = Some w' ->
  tasks w' = tasks (push_new_project t d p w).

(** The arrays a pass over passive callbacks leaves behind: each is what
    its own receiver made of the copy of [this.projects]. *)
Definition snapshots_left (w : World) (ls : list Listener) : list (list ref) :=
  map (fun l => own_writes (body l) (projects w)) ls.

End State.

(** * Drag and drop *)

Module Drag.
Import State.

(** ** The browser objects the handlers touch *)

(** [DataTransfer]: the drag data store, as (format, data) items in the
    order they were added, and [effectAllowed]. *)
Record DataTransfer : Set := mkDataTransfer {
  items : list (string * string);
  effectAllowed : string
}.

(** [dataTransfer.types] *)
Definition types (dt : DataTransfer) : list string := map fst (items dt).

(** [dataTransfer.getData(format)]: the data of that format, or the empty
    string when there is none.  The format is compared as it is given: the
    platform first converts its argument to ASCII lower case and reads
    ["text"] as ["text/plain"] and ["url"] as ["text/uri-list"], which is
    not modelled.  The handlers only ever pass the literal ["text/plain"],
    for which the comparison is exact. *)
Definition getData (format : string) (dt : DataTransfer) : string :=
  match List.find (fun it => String.eqb (fst it) format) (items dt) with
  | Some it => snd it
  | None => ""
  end.

(** [dataTransfer.setData(format, data)]: replaces the item of that format. *)
Definition setData (format data : string) (dt : DataTransfer) : DataTransfer :=
  mkDataTransfer
    (List.filter (fun it => negb (String.eqb (fst it) format)) (items dt)
     ++ [(format, data)])
    (effectAllowed dt).

(** [dataTransfer.effectAllowed = effect] *)
Definition set_effectAllowed (effect : string) (dt : DataTransfer) : DataTransfer :=
  mkDataTransfer (items dt) effect.

(** [DragEvent]: [event.dataTransfer] may be [null]. *)
Record DragEvent : Set := mkDragEvent {
  dataTransfer : option DataTransfer;
  defaultPrevented : bool
}.

(** [event.preventDefault()] *)
Definition preventDefault (event : DragEvent) : DragEvent :=
  mkDragEvent (dataTransfer event) true.

(** [classList.add(token)], [classList.remove(token)],
    [classList.contains(token)] of a [DOMTokenList]. *)
Definition classList_contains (token : string) (cl : list string) : bool :=
  existsb (String.eqb token) cl.

Definition classList_add (token : string) (cl : list string) : list string :=
  if classList_contains token cl then cl else cl ++ [token].

Definition classList_remove (token : string) (cl : list string) : list string :=
  List.filter (fun t => negb (String.eqb t token)) cl.

(** ** Handlers

    A handler changes its component and the event it is given, and may call
    the store; [None] is the [TypeError] of a property access on a [null]
    [event.dataTransfer] (the [!] of the source is erased by the compiler). *)
Inductive StoreCall : Set :=
| MoveProject (projectId : string) (newStatus : ProjectStatus).

Definition Handler (S : Type) : Type :=
  S -> DragEvent -> option (S * DragEvent * list StoreCall).

(** [interface Draggable] and [interface DragTarget] *)
Class Draggable (S : Type) : Type := {
  dragStartHandler : Handler S;
  dragEndHandler : Handler S
}.

Class DragTarget (S : Type) : Type := {
  dragOverHandler : Handler S;
  dropHandler : Handler S;
  dragLeaveHandler : Handler S
}.

(** ** class ProjectItem

    The item reads [this.project.id] when the drag starts; [project] is the
    object as it is then. *)
Record ProjectItem : Set := mkProjectItem {
  project : Project
}.

Definition ProjectItem_dragStartHandler : Handler ProjectItem :=
  fun this event =>
    match dataTransfer event with
    | Some dt =>
        let dt1 := setData "text/plain" (id (project this)) dt in
        let dt2 := set_effectAllowed "move" dt1 in
        Some (this, mkDragEvent (Some dt2) (defaultPrevented event), [])
    | None => None
    end.

(** [console.log("DragEnd")] *)
Definition ProjectItem_dragEndHandler : Handler ProjectItem :=
  fun this event => Some (this, event, []).

#[export] Instance ProjectItem_Draggable : Draggable ProjectItem := {
  dragStartHandler := ProjectItem_dragStartHandler;
  dragEndHandler := ProjectItem_dragEndHandler
}.

(** ** class ProjectList *)

(** [private type: "active" | "finished"] *)
Inductive ListType : Set :=
| active
| finished.

(** The component and the part of its [<section>] element the handlers and
    the listener write to: the class list and the children of its [<ul>]. *)
Record ProjectList : Set := mkProjectList {
  type : ListType;
  assignedProjects : list Project;
  ul_classList : list string;
  ul_children : list ProjectItem
}.

(** [this.type === "active" ? ProjectStatus.ACTIVE : ProjectStatus.FINISHED] *)
Definition target_status (this : ProjectList) : ProjectStatus :=
  match type this with
  | active => ACTIVE
  | finished => FINISHED
  end.

Definition with_classList (cl : list string) (this : ProjectList) : ProjectList :=
  mkProjectList (type this) (assignedProjects this) cl (ul_children this).

(** [event.dataTransfer.types[0]] *)
Definition label (event : DragEvent) : option string :=
  match dataTransfer event with
  | Some dt => types dt !! 0
  | None => None
  end.

Definition ProjectList_dragOverHandler : Handler ProjectList :=
  fun this event =>
    match dataTransfer event with
    | Some dt =>
        match types dt !! 0 with
        | Some t =>
            if String.eqb t "text/plain" then
              Some (with_classList (classList_add "droppable" (ul_classList this)) this,
                    preventDefault event, [])
            else Some (this, event, [])
        | None => Some (this, event, [])
        end
    | None => Some (this, event, [])
    end.

Definition ProjectList_dragLeaveHandler : Handler ProjectList :=
  fun this event =>
    Some (with_classList (classList_remove "droppable" (ul_classList this)) this,
          event, []).

Definition ProjectList_dropHandler : Handler ProjectList :=
  fun this event =>
    match dataTransfer event with
    | Some dt =>
        let prjId := getData "text/plain" dt in
        Some (this, event, [MoveProject prjId (target_status this)])
    | None => None
    end.

#[export] Instance ProjectList_DragTarget : DragTarget ProjectList := {
  dragOverHandler := ProjectList_dragOverHandler;
  dropHandler := ProjectList_dropHandler;
  dragLeaveHandler := ProjectList_dragLeaveHandler
}.

(** [renderProjects]: empties the [<ul>] and creates one [ProjectItem] per
    assigned project. *)
Definition renderProjects (this : ProjectList) : ProjectList :=
  mkProjectList (type this) (assignedProjects this) (ul_classList this)
                (map mkProjectItem (assignedProjects this)).

(** The callback [configure] registers with [projectState.addListener]. *)
Definition projectsListener (this : ProjectList) (projects : list Project) : ProjectList :=
  let relevantProjects :=
    List.filter
      (fun prj =>
         match type this with
         | active => bool_decide (status prj = ACTIVE)
         | finished => bool_decide (status prj = FINISHED)
         end)
      projects in
  renderProjects
    (mkProjectList (type this) relevantProjects (ul_classList this) (ul_children this)).

(** ** Event delivery

    [configure] binds the handlers with [addEventListener]: the item listens
    to [dragstart] and [dragend], the list to [dragover], [dragleave] and
    [drop]. *)
Inductive EventType : Set :=
| on_dragstart
| on_dragend
| on_dragover
| on_dragleave
| on_drop.

Definition unhandled {S : Type} : Handler S :=
  fun this event => Some (this, event, []).

Definition ProjectItem_configure (ty : EventType) : Handler ProjectItem :=
  match ty with
  | on_dragstart => dragStartHandler
  | on_dragend => dragEndHandler
  | _ => unhandled
  end.

Definition ProjectList_configure (ty : EventType) : Handler ProjectList :=
  match ty with
  | on_dragover => dragOverHandler
  | on_dragleave => dragLeaveHandler
  | on_drop => dropHandler
  | _ => unhandled
  end.

(** One dragged item and one list on the page. *)
Record Page : Set := mkPage {
  source : ProjectItem;
  target : ProjectList
}.

Inductive Delivery : Set :=
| ToItem (ty : EventType)
| ToList (ty : EventType).

(** What one delivery leaves: the page, the event as the handler left it,
    and the store calls made. *)
Definition deliver (d : Delivery) (pg : Page) (event : DragEvent)
    : option (Page * DragEvent * list StoreCall) :=
  match d with
  | ToItem ty =>
      match ProjectItem_configure ty (source pg) event with
      | Some (it, event', calls) => Some (mkPage it (target pg), event', calls)
      | None => None
      end
  | ToList ty =>
      match ProjectList_configure ty (target pg) event with
      | Some (l, event', calls) => Some (mkPage (source pg) l, event', calls)
      | None => None
      end
  end.

(** A sequence of deliveries within one gesture.  Every delivery is a new
    event object on the gesture's one [DataTransfer].  The result is [None]
    when a handler throws; the events the platform would still fire after
    reporting the exception are not followed, and the properties below are
    about gestures in which every handler returns. *)
Fixpoint deliver_all (ds : list Delivery) (pg : Page) (dt : option DataTransfer)
    : option (Page * option DataTransfer * list StoreCall) :=
  match ds with
  | [] => Some (pg, dt, [])
  | d :: rest =>
      match deliver d pg (mkDragEvent dt false) with
      | Some (pg', event', calls) =>
          match deliver_all rest pg' (dataTransfer event') with
          | Some (pg'', dt'', calls') => Some (pg'', dt'', calls ++ calls')
          | None => None
          end
      | None => None
      end
  end.

(** The browser's side of a gesture over the list, as the drag-and-drop
    processing model of the HTML Standard has it: while the pointer is over
    the target it fires [dragover] there; when the pointer leaves it fires
    [dragleave]; when the button is released it fires [drop] if the last
    [dragover] was cancelled by [preventDefault] and [dragleave] otherwise. *)
Inductive Pointer : Set :=
| Over
| Out
| Release.

Fixpoint browser (acts : list Pointer) (accepted : bool) (pg : Page)
    (dt : option DataTransfer)
    : option (Page * option DataTransfer * list StoreCall) :=
  match acts with
  | [] => Some (pg, dt, [])
  | a :: rest =>
      let d :=
        match a with
        | Over => ToList on_dragover
        | Out => ToList on_dragleave
        | Release => if accepted then ToList on_drop else ToList on_dragleave
        end in
      match deliver d pg (mkDragEvent dt false) with
      | Some (pg', event', calls) =>
          let accepted' :=
            match a with
            | Over => defaultPrevented event'
            | _ => false
            end in
          match browser rest accepted' pg' (dataTransfer event') with
          | Some (pg'', dt'', calls') => Some (pg'', dt'', calls ++ calls')
          | None => None
          end
      | None => None
      end
  end.

(** The store's side of a call made by a handler. *)
Definition perform (fuel : nat) (c : StoreCall) (w : World) : option World :=
  match c with
  | MoveProject projectId newStatus => moveProject fuel projectId newStatus w
  end.

(** Claim C9 as the specification words it: after the drop handler the
    indicator is gone. *)
Definition drop_removes_indicator (this : ProjectList) (event : DragEvent) : Prop :=
  forall this' event' calls,
    dropHandler this event = Some (this', event', calls) ->
    classList_contains "droppable" (ul_classList this') = false.

(** The store calls a handler made. *)
Definition calls_of {S : Type} (r : option (S * DragEvent * list StoreCall))
    : list StoreCall :=
  match r with
  | Some (_, _, calls) => calls
  | None => []
  end.

End Drag.

(** * Validation *)

Module Validation.

(** A JavaScript string is taken as its sequence of code units, one
    character per unit; the characters of [string] are the units below 256. *)

(** The white space and line terminators [String.prototype.trim] strips,
    as far as they lie below 256: TAB, LF, VT, FF, CR, SP and NBSP. *)
Definition is_whitespace (c : ascii) : bool :=
  match nat_of_ascii c with
  | 9 | 10 | 11 | 12 | 13 | 32 | 160 => true
  | _ => false
  end.

Fixpoint trimStart (s : string) : string :=
  match s with
  | EmptyString => EmptyString
  | String c rest => if is_whitespace c then trimStart rest else s
  end.

Fixpoint trimEnd (s : string) : string :=
  match s with
  | EmptyString => EmptyString
  | String c rest =>
      match trimEnd rest with
      | EmptyString => if is_whitespace c then EmptyString else String c EmptyString
      | rest' => String c rest'
      end
  end.

(** [s.trim()] *)
Definition trim (s : string) : string := trimEnd (trimStart s).

(** A JavaScript [number] as the comparison operators see it: a double is
    NaN, an infinity, or a rational (both zeros compare as 0). *)
Inductive JsNumber : Set :=
| NaN
| Infinity (negative : bool)
| Finite (q : QArith_base.Q).

(** [a >= b] on numbers; any comparison with NaN is false. *)
Definition num_ge (a b : JsNumber) : bool :=
  match a, b with
  | NaN, _ | _, NaN => false
  | Infinity false, _ => true
  | _, Infinity true => true
  | Infinity true, _ => false
  | _, Infinity false => false
  | Finite p, Finite q => QArith_base.Qle_bool q p
  end.

(** [a <= b] *)
Definition num_le (a b : JsNumber) : bool := num_ge b a.

Definition of_Z (z : Z) : JsNumber := Finite (QArith_base.inject_Z z).

(** [s.length] as a number. *)
Definition length_of (s : string) : JsNumber := of_Z (Z.of_nat (String.length s)).

(** [value: string | number] *)
Inductive Value : Set :=
| Str (s : string)
| Num (n : JsNumber).

(** [interface Validatable]; an optional property that is absent is [None]. *)
Record Validatable : Set := mkValidatable {
  value : Value;
  required : option bool;
  minLength : option JsNumber;
  maxLength : option JsNumber;
  min : option JsNumber;
  max : option JsNumber
}.

(** The conversions of the language that [validate] relies on are taken as
    given: [ToNumber] is the conversion of a string to a number that [>=] and
    unary [+] apply, [Number_toString] is [Number.prototype.toString]. *)
Section Builtins.
Variable ToNumber : string -> JsNumber.
Variable Number_toString : JsNumber -> string.

(** [value.toString()] *)
Definition toString (v : Value) : string :=
  match v with
  | Str s => s
  | Num n => Number_toString n
  end.

(** The operand [value] of [value >= min], which is a number on the other
    side, converted to a number. *)
Definition toNumeric (v : Value) : JsNumber :=
  match v with
  | Str s => ToNumber s
  | Num n => n
  end.

Definition validate (validatableInput : Validatable) : bool :=
  let isValid := true in
  let isValid :=
    match required validatableInput with
    | Some true =>
        isValid
        && negb (String.length (trim (toString (value validatableInput))) =? 0)
    | _ => isValid
    end in
  let isValid :=
    match minLength validatableInput, value validatableInput with
    | Some m, Str s => isValid && num_ge (length_of s) m
    | _, _ => isValid
    end in
  let isValid :=
    match maxLength validatableInput, value validatableInput with
    | Some m, Str s => isValid && num_le (length_of s) m
    | _, _ => isValid
    end in
  let isValid :=
    match min validatableInput with
    | Some m => isValid && num_ge (toNumeric (value validatableInput)) m
    | None => isValid
    end in
  let isValid :=
    match max validatableInput with
    | Some m => isValid && num_le (toNumeric (value validatableInput)) m
    | None => isValid
    end in
  isValid.

End Builtins.

(** Nothing but white space (the empty string included). *)
Fixpoint blank (s : string) : bool :=
  match s with
  | EmptyString => true
  | String c rest => is_whitespace c && blank rest
  end.

End Validation.

(** * The input form *)

Module Input.
Import State Validation.

(** [class ProjectInput]: the [value] of its three [<input>] elements. *)
Record ProjectInput : Set := mkProjectInput {
  titleInputElement : string;
  descriptionInputElement : string;
  peopleInputElement : string
}.

(** What the form does to the outside: [alert(message)] and
    [projectState.addProject(title, description, people)]. *)
Inductive Effect : Set :=
| Alert (message : string)
| AddProject (title description : string) (people : JsNumber).

Definition clearInputs (this : ProjectInput) : ProjectInput :=
  mkProjectInput "" "" "".

Section Builtins.
Variable ToNumber : string -> JsNumber.
Variable Number_toString : JsNumber -> string.

(** Returns the form, the tuple or nothing, and the effects. *)
Definition gatherUserInput (this : ProjectInput)
    : ProjectInput * option (string * string * JsNumber) * list Effect :=
  let enteredTitle := titleInputElement this in
  let enteredDescription := descriptionInputElement this in
  let enteredPeople := peopleInputElement this in
  let titleValidatable :=
    mkValidatable (Str enteredTitle) (Some true) (Some (of_Z 5)) None None None in
  let descriptionValidatable :=
    mkValidatable (Str enteredDescription) (Some true) (Some (of_Z 5)) None None None in
  let peopleValidatable :=
    mkValidatable (Str enteredPeople) (Some true) None None
                  (Some (of_Z 1)) (Some (of_Z 5)) in
  if negb (validate ToNumber Number_toString titleValidatable)
     || negb (validate ToNumber Number_toString descriptionValidatable)
     || negb (validate ToNumber Number_toString peopleValidatable)
  then (this, None, [Alert "Invalid input :("])
  else (clearInputs this,
        Some (enteredTitle, enteredDescription, ToNumber enteredPeople), []).

(** [submitHandler(event)]: yields the form, [event.defaultPrevented] and
    the effects in the order they happen. *)
Definition submitHandler (this : ProjectInput) (defaultPrevented : bool)
    : ProjectInput * bool * list Effect :=
  let defaultPrevented := true in
  let '(this, userInput, effects) := gatherUserInput this in
  match userInput with
  | Some (title, description, people) =>
      (clearInputs this, defaultPrevented,
       effects ++ [AddProject title description people])
  | None => (this, defaultPrevented, effects)
  end.

End Builtins.

(** The three rules of [gatherUserInput] in words of the strings typed. *)
Definition acceptable_text (s : string) : Prop :=
  blank s = false /\ 5 <= String.length s.

Definition acceptable_people (ToNumber : string -> JsNumber) (s : string) : Prop :=
  blank s = false /\
  num_ge (ToNumber s) (of_Z 1) = true /\
  num_le (ToNumber s) (of_Z 5) = true.

End Input.

Import State Drag.

(** * Scenarios *)

(** The answers of a [Math.random().toString()] that never repeats... *)
Fixpoint sevens (n : nat) : string :=
  match n with
  | 0 => "7"
  | S k => String "7"%char (sevens k)
  end.

Definition fresh_random (n : nat) : string := String.append "0." (sevens n).

(** ... and of one that returns the same number every time. *)
Definition stuck_random (_ : nat) : string := "0.5".



(** A store with one callback that marks the first task it is shown as
    finished, by writing to the element of its snapshot. *)
Definition meddler : Listener := mkListener 1 [ItemWrite 0 (set_status FINISHED)].

Definition store_with_meddler : World :=
  addListener meddler (getInstance fresh_random).

(** A store with two callbacks that empty, respectively reverse, the array
    they are given. *)
Definition store_with_array_writers : World :=
  addListener (mkListener 2 [ItemsWrite (@rev ref)])
    (addListener (mkListener 1 [ItemsWrite (fun _ => [])])
       (push_new_project "Build API" "Design REST layer" 3%Z
          (getInstance fresh_random))).

(** A store with three registrations, the first function registered twice. *)
Definition store_with_three_listeners : World :=
  addListener (mkListener 1 [])
    (addListener (mkListener 2 [])
       (addListener (mkListener 1 []) (getInstance fresh_random))).

(** The store of end-to-end scenario A, with one task and one view. *)
Definition store_after_scenario_A : World :=
  match
    addProject 5 "Build API" "Design REST layer" 3%Z
      (addListener (mkListener 1 []) (getInstance fresh_random))
  with
  | Some w => w
  | None => getInstance fresh_random
  end.

(** The data store of a gesture before [dragstart] has filled it. *)
Definition empty_transfer : DataTransfer := mkDataTransfer [] "uninitialized".

(** A gesture whose first declared format is not the plain-text marker. *)
Definition html_transfer : DataTransfer :=
  mkDataTransfer [("text/html", "<b>abc</b>")] "copy".

(** The card of the task with id ["abc"] and the two lists of the page. *)
Definition abc_item : ProjectItem :=
  mkProjectItem (mkProject "abc" "Build API" "Design REST layer" 3%Z ACTIVE).

Definition active_list : ProjectList := mkProjectList active [] [] [].

Definition finished_list : ProjectList := mkProjectList finished [] [] [].

(** The finished list while a card is dragged over it. *)
Definition hovered_finished_list : ProjectList :=
  mkProjectList finished [] ["droppable"] [].

(** Callbacks that call back into the store: one moves the task it is told
    about to the finished list, one answers every change with a new task. *)
Definition store_with_reentrant_mover : World :=
  addListener (mkListener 1 [CallMoveProject "0.7" FINISHED])
    (getInstance fresh_random).


(** * Further notions *)

(** Nothing the store holds was taken away or reordered between [w] and
    [w']: the task references, the callbacks and the trace of [w] begin those
    of [w'], no object or array was freed, and the references of the store
    stay allocated. *)
Definition grows (w w' : World) : Prop :=
  projects w `prefix_of` projects w' /\
  listeners w `prefix_of` listeners w' /\
  trace w `prefix_of` trace w' /\
  length (objs w) <= length (objs w') /\
  length (snapshots w) <= length (snapshots w') /\
  draws w <= draws w' /\
  Math_random w' = Math_random w /\
  (wf w -> wf w').

(** A store in which the generator repeated itself: two tasks share the
    id ["0.5"]. *)
Definition store_with_duplicate_ids : World :=
  match
    addProjects 5 [("Build API", "Design REST layer", 3%Z);
                   ("Write tests", "Cover the store", 2%Z)]
      (addListener (mkListener 1 []) (getInstance stuck_random))
  with
  | Some w => w
  | None => getInstance stuck_random
  end.

(** A store whose second callback answers every notification with
    [addProject]. *)
Definition store_with_reentrant_adder : World :=
  addListener (mkListener 2 [CallAddProject "Again" "One more task" 1%Z; ItemsWrite (@rev nat)])
    (addListener (mkListener 1 [ItemsWrite (@rev nat)]) (getInstance fresh_random)).

(** A conversion to instantiate [ToNumber] with: the value of a string of
    decimal digits (0 for the empty string), as JavaScript converts it; every
    other string is answered with NaN here. *)
Fixpoint digits_value (acc : Z) (s : string) : option Z :=
  match s with
  | EmptyString => Some acc
  | String c rest =>
      let n := nat_of_ascii c in
      if (48 <=? n) && (n <=? 57)
      then digits_value (10 * acc + Z.of_nat (n - 48)) rest
      else None
  end.

Definition digits_ToNumber (s : string) : Validation.JsNumber :=
  match digits_value 0 s with
  | Some z => Validation.of_Z z
  | None => Validation.NaN
  end.

(** [Number.prototype.toString] on NaN and the infinities; the forms below
    hold strings only, so it is never asked about a finite number. *)
Definition special_toString (n : Validation.JsNumber) : string :=
  match n with
  | Validation.NaN => "NaN"
  | Validation.Infinity false => "Infinity"
  | Validation.Infinity true => "-Infinity"
  | Validation.Finite _ => ""
  end.

(** The form as filled in for scenario A, and with a title that is too
    short. *)
Definition filled_form : Input.ProjectInput :=
  Input.mkProjectInput "Build API" "Design REST layer" "3".

Definition short_title_form : Input.ProjectInput :=
  Input.mkProjectInput "API " "Design REST layer" "3".

(** * The contract as the specification words it *)



(** Claim C3 as the specification words it: after a run of [addProject]
    calls the ids are pairwise distinct. *)
Definition ids_pairwise_distinct (fuel : nat)
    (calls : list (string * string * number)) (w : World) : Prop :=
  forall w', addProjects fuel calls w = Some w' -> NoDup (ids w').





(** A store with two tasks and one passive callback. *)
Definition store_with_two_tasks : World :=
  push_new_project "Write tests" "Cover the store" 2%Z
    (push_new_project "Build API" "Design REST layer" 3%Z
       (addListener (mkListener 1 [ItemsWrite (@rev nat)])
          (getInstance fresh_random))).




(** * Properties of the store *)

(** ** Bodies that do not re-enter the store *)

Section Bodies.
Variable notify : World -> option World.

Lemma run_body_nonreentrant items cs w :
  forallb nonreentrant cs = true ->
  run_body notify items cs w = Some (apply_body items cs w).
Proof.
  revert w; induction cs as [|c cs IH]; intros w H; simpl in *; [reflexivity|].
  apply andb_true_iff in H as [Hc Hcs].
  destruct c; simpl in Hc; try discriminate; rewrite IH; auto.
Qed.

End Bodies.

Lemma passive_nonreentrant c : passive c = true -> nonreentrant c = true.
Proof. destruct c; simpl; congruence. Qed.

Lemma passive_listener_nonreentrant l :
  passive_listener l = true -> nonreentrant_listener l = true.
Proof.
  unfold passive_listener, nonreentrant_listener.
  rewrite !forallb_forall. intros H c Hc. apply passive_nonreentrant; auto.
Qed.

Lemma passive_store_nonreentrant w :
  passive_store w = true -> nonreentrant_store w = true.
Proof.
  unfold passive_store, nonreentrant_store.
  rewrite !forallb_forall. intros H c Hc. apply passive_listener_nonreentrant; auto.
Qed.

Lemma registers_weight cs :
  pass_weight (registers cs) = list_sum (map weight cs).
Proof.
  induction cs as [|c cs IH]; simpl; [reflexivity|].
  destruct c; simpl; auto.
  unfold pass_weight in *. simpl. rewrite IH. reflexivity.
Qed.

Lemma registers_nonreentrant cs :
  forallb nonreentrant cs = true ->
  forallb nonreentrant_listener (registers cs) = true.
Proof.
  induction cs as [|c cs IH]; simpl; [reflexivity|].
  intros H. apply andb_true_iff in H as [Hc Hcs].
  destruct c; simpl in *; auto.
  rewrite IH by assumption. unfold nonreentrant_listener. simpl. rewrite Hc. reflexivity.
Qed.

Lemma registers_passive cs :
  forallb passive cs = true -> registers cs = [].
Proof.
  induction cs as [|c cs IH]; simpl; [reflexivity|].
  intros H. apply andb_true_iff in H as [Hc Hcs].
  destruct c; simpl in *; try discriminate; auto.
Qed.

(** What a body run on a snapshot array leaves alone. *)
Lemma apply_body_frame n cs w :
  let w' := apply_body (S n) cs w in
  projects w' = projects w /\
  listeners w' = listeners w ++ registers cs /\
  length (objs w') = length (objs w) /\
  length (snapshots w') = length (snapshots w) /\
  trace w' = trace w /\
  draws w' = draws w /\
  Math_random w' = Math_random w.
Proof.
  revert w; induction cs as [|c cs IH]; intros w; simpl.
  - rewrite app_nil_r. repeat split; reflexivity.
  - destruct c; simpl;
      match goal with |- context [apply_body _ _ ?x] => specialize (IH x) end;
      simpl in IH; destruct IH as (H1 & H2 & H3 & H4 & H5 & H6 & H7);
      rewrite ?H1, ?H2, ?H3, ?H4, ?H5, ?H6, ?H7.
    + simpl. rewrite length_alter. repeat split; reflexivity.
    + unfold obj_write. destruct (_ !! i); simpl; rewrite ?length_alter; repeat split; reflexivity.
    + simpl. rewrite <- app_assoc. repeat split; reflexivity.
    + repeat split; reflexivity.
    + repeat split; reflexivity.
Qed.

(** ** One callback invocation *)

Lemma slice_contents w : arr_get (snd (slice w)) (fst (slice w)) = projects w.
Proof.
  simpl. rewrite lookup_app_r by lia. rewrite Nat.sub_diag. reflexivity.
Qed.

Lemma after_listener_frame l w :
  let w' := after_listener l w in
  projects w' = projects w /\
  listeners w' = listeners w ++ registers (body l) /\
  length (objs w') = length (objs w) /\
  length (snapshots w') = S (length (snapshots w)) /\
  trace w' = trace w ++ [Invoked (name l) (S (length (snapshots w))) (projects w)] /\
  draws w' = draws w /\
  Math_random w' = Math_random w.
Proof.
  unfold after_listener. simpl fst.
  destruct (apply_body_frame (length (snapshots w)) (body l) (delivered l w))
    as (H1 & H2 & H3 & H4 & H5 & H6 & H7).
  simpl. rewrite H1, H2, H3, H4, H5, H6, H7. simpl.
  rewrite length_app. simpl. repeat split; auto. lia.
Qed.

(** ** The pass terminates and is the relation [pass] *)

Lemma pass_weight_app ls ks :
  pass_weight (ls ++ ks) = pass_weight ls + pass_weight ks.
Proof. unfold pass_weight. rewrite map_app, list_sum_app. reflexivity. Qed.

Lemma nonreentrant_store_lookup w i l :
  nonreentrant_store w = true -> listeners w !! i = Some l ->
  nonreentrant_listener l = true.
Proof.
  unfold nonreentrant_store. rewrite forallb_forall. intros H Hl.
  apply H. apply list_elem_of_In. eapply list_elem_of_lookup_2; eauto.
Qed.

Lemma after_listener_nonreentrant l w :
  nonreentrant_store w = true -> nonreentrant_listener l = true ->
  nonreentrant_store (after_listener l w) = true.
Proof.
  intros Hw Hl. unfold nonreentrant_store in *.
  destruct (after_listener_frame l w) as (_ & -> & _).
  rewrite forallb_app, Hw. simpl. apply registers_nonreentrant, Hl.
Qed.

Lemma pass_exists fuel : forall i w,
  nonreentrant_store w = true ->
  pass_weight (drop i (listeners w)) < fuel ->
  exists w', updateListeners_from fuel i w = Some w' /\ pass i w w'.
Proof.
  induction fuel as [|fuel IH]; intros i w Hw Hfuel; [lia|].
  simpl. destruct (listeners w !! i) as [l|] eqn:Hl.
  - assert (Hnl := nonreentrant_store_lookup _ _ _ Hw Hl).
    rewrite run_body_nonreentrant by exact Hnl.
    pose proof (slice_contents w) as Hc. simpl in Hc. rewrite Hc.
    change (apply_body _ _ _) with (after_listener l w).
    destruct (IH (S i) (after_listener l w)) as (w' & Hrun & Hpass).
    + apply after_listener_nonreentrant; assumption.
    + destruct (after_listener_frame l w) as (_ & -> & _).
      rewrite (drop_S _ _ _ Hl) in Hfuel.
      rewrite drop_app_le by (apply lookup_lt_Some in Hl; lia).
      rewrite pass_weight_app, registers_weight.
      change (pass_weight (l :: ?k)) with (listener_weight l + pass_weight k) in Hfuel.
      unfold listener_weight in Hfuel. lia.
    + exists w'. split; [exact Hrun|]. eapply pass_step; eauto.
  - exists w. split; [reflexivity|]. apply pass_done, Hl.
Qed.

(** ** What a pass does *)


Lemma new_events_app w w' evs :
  trace w' = trace w ++ evs -> new_events w w' = evs.
Proof. unfold new_events. intros ->. apply drop_app_length. Qed.

Lemma imap_event_name (f : nat -> Listener -> Event) ls :
  (forall k l, event_name (f k l) = name l) ->
  map event_name (imap f ls) = map name ls.
Proof.
  revert f; induction ls as [|l ls IH]; intros f Hf; [reflexivity|].
  rewrite imap_cons. simpl. rewrite Hf, IH; [reflexivity|].
  intros k x. apply Hf.
Qed.

(** ** The model at work *)

(** End-to-end scenarios A, B and C of the specification. *)
Example scenario_A :
  store_after_scenario_A
  = mkWorld [mkProject "0.7" "Build API" "Design REST layer" 3%Z ACTIVE] [0]
            [[0]] [mkListener 1 []] fresh_random 1 [Invoked 1 1 [0]].
Proof. reflexivity. Qed.

Example scenario_B :
  moveProject 5 "0.7" FINISHED store_after_scenario_A
  = Some (mkWorld [mkProject "0.7" "Build API" "Design REST layer" 3%Z FINISHED]
            [0] [[0]; [0]] [mkListener 1 []] fresh_random 1
            [Invoked 1 1 [0]; Invoked 1 2 [0]]).
Proof. reflexivity. Qed.

Example scenario_C :
  forall w, moveProject 5 "0.7" FINISHED store_after_scenario_A = Some w ->
  moveProject 5 "0.7" FINISHED w = Some w.
Proof. intros w [= <-]. reflexivity. Qed.

(** A callback that calls [moveProject] makes the store notify again from
    within the pass: one [addProject] then invokes it twice. *)
Example reentrant_mover_is_invoked_twice :
  option_map (fun w' => (invoked store_with_reentrant_mover w', tasks w'))
    (addProject 5 "Build API" "Design REST layer" 3%Z store_with_reentrant_mover)
  = Some ([1; 1],
          [mkProject "0.7" "Build API" "Design REST layer" 3%Z FINISHED]).
Proof. reflexivity. Qed.


(** ** A callback registered during a pass *)


(** ** Passive callbacks *)

Lemma apply_body_passive n cs w :
  forallb passive cs = true ->
  apply_body (S n) cs w = arr_write (S n) (own_writes cs) w.
Proof.
  revert w; induction cs as [|c cs IH]; intros w H; simpl in *.
  - destruct w; simpl. rewrite list_alter_id; reflexivity.
  - apply andb_true_iff in H as [Hc Hcs].
    destruct c; simpl in Hc; try discriminate.
    rewrite IH by exact Hcs. simpl. rewrite list_alter_alter_eq. reflexivity.
Qed.

Lemma after_listener_passive l w :
  passive_listener l = true ->
  after_listener l w =
  mkWorld (objs w) (projects w)
          (snapshots w ++ [own_writes (body l) (projects w)]) (listeners w)
          (Math_random w) (draws w)
          (trace w ++ [Invoked (name l) (S (length (snapshots w))) (projects w)]).
Proof.
  intros Hl. unfold after_listener. simpl fst.
  rewrite apply_body_passive by exact Hl. simpl.
  rewrite alter_app_r_alt by lia. rewrite Nat.sub_diag. reflexivity.
Qed.

Lemma passive_store_lookup w i l :
  passive_store w = true -> listeners w !! i = Some l ->
  passive_listener l = true.
Proof.
  unfold passive_store. rewrite forallb_forall. intros H Hl.
  apply H. apply list_elem_of_In. eapply list_elem_of_lookup_2; eauto.
Qed.

Lemma imap_invocation_shift w l ls :
  imap (invocation w) (l :: ls) =
  Invoked (name l) (S (length (snapshots w))) (projects w) ::
  imap (invocation (after_listener l w)) ls.
Proof.
  rewrite imap_cons. unfold invocation at 1. rewrite Nat.add_0_r. f_equal.
  apply imap_ext. intros k x _. unfold invocation. simpl.
  destruct (after_listener_frame l w) as (F1 & _ & _ & F4 & _).
  rewrite F4, F1. f_equal. lia.
Qed.

(** A pass over passive callbacks neither touches the store nor any array
    but the one each callback was given. *)
Lemma pass_passive i w w' :
  passive_store w = true ->
  pass i w w' ->
  w' = mkWorld (objs w) (projects w)
         (snapshots w ++ snapshots_left w (drop i (listeners w)))
         (listeners w) (Math_random w) (draws w)
         (trace w ++ imap (invocation w) (drop i (listeners w))).
Proof.
  intros Hw Hpass. induction Hpass as [i w Hnone | i w l w' Hl Hpass IH].
  - apply lookup_ge_None in Hnone. rewrite drop_ge by exact Hnone.
    simpl. rewrite !app_nil_r. destruct w; reflexivity.
  - assert (Hpl := passive_store_lookup _ _ _ Hw Hl).
    rewrite (drop_S _ _ _ Hl), imap_invocation_shift.
    rewrite IH; clear IH.
    + rewrite (after_listener_passive l w Hpl). simpl.
      rewrite <- !app_assoc. reflexivity.
    + rewrite (after_listener_passive l w Hpl). exact Hw.
Qed.

Lemma passive_pass_weight ls :
  forallb passive_listener ls = true -> pass_weight ls = length ls.
Proof.
  induction ls as [|l ls IH]; simpl; [reflexivity|].
  intros H. apply andb_true_iff in H as [Hl Hls].
  change (pass_weight (l :: ls)) with (listener_weight l + pass_weight ls).
  rewrite IH by exact Hls. unfold listener_weight.
  pose proof (registers_weight (body l)) as Hw.
  rewrite registers_passive in Hw by exact Hl. rewrite <- Hw. reflexivity.
Qed.

Lemma passive_pass fuel w :
  passive_store w = true ->
  length (listeners w) < fuel ->
  exists w', updateListeners fuel w = Some w' /\ pass 0 w w'.
Proof.
  intros Hw Hfuel. apply pass_exists.
  - apply passive_store_nonreentrant, Hw.
  - rewrite drop_0, passive_pass_weight; assumption.
Qed.

(** ** Snapshot isolation *)

(** C4, counterexample: the callback of [store_with_meddler] writes
    [FINISHED] into element 0 of the array it receives; the task that
    [addProject] created as [ACTIVE] is then [FINISHED] in the store, without
    any call of [moveProject]. *)
Lemma snapshot_element_write_reaches_store_task :
  ~ snapshots_protect_tasks 5 "Build API" "Design REST layer" 3%Z
      store_with_meddler.
Proof.
  intros H. specialize (H _ eq_refl). vm_compute in H. discriminate H.
Qed.

(** C4, amended: the array a callback receives is its own.  A pass over
    callbacks that only write to the array they received leaves the store's
    sequence, the store's tasks and every array delivered earlier as they
    were, and each new array ends as what its own receiver made of it.  The
    copy is shallow: element [i] of the array is the reference the store
    holds at position [i], so a field write through it is a write to the
    task of the store. *)
Theorem snapshot_isolation_is_shallow fuel w :
  (passive_store w = true ->
   length (listeners w) < fuel ->
   exists w',
     updateListeners fuel w = Some w' /\
     projects w' = projects w /\
     objs w' = objs w /\
     snapshots w' = snapshots w ++ snapshots_left w (listeners w) /\
     new_events w w' = imap (invocation w) (listeners w)) /\
  (forall n i f r,
     listeners w = [mkListener n [ItemWrite i f]] ->
     projects w !! i = Some r ->
     1 < fuel ->
     exists w',
       updateListeners fuel w = Some w' /\
       projects w' = projects w /\
       objs w' = alter f r (objs w)).
Proof.
  split.
  - intros Hw Hfuel.
    destruct (passive_pass fuel w Hw Hfuel) as (w' & Hrun & Hpass).
    exists w'. split; [exact Hrun|].
    rewrite (pass_passive _ _ _ Hw Hpass), drop_0. simpl.
    repeat split; try reflexivity.
    apply new_events_app. reflexivity.
  - intros n i f r Hls Hi Hfuel.
    destruct fuel as [|[|fuel]]; try lia.
    unfold updateListeners. simpl. rewrite Hls. simpl.
    unfold obj_write. simpl.
    rewrite lookup_app_r by lia. rewrite Nat.sub_diag. simpl. rewrite Hi. simpl.
    eexists. split; [reflexivity|]. split; reflexivity.
Qed.

Lemma snapshot_isolation_is_shallow_witness :
  (exists w',
     updateListeners 5 store_with_array_writers = Some w' /\
     projects w' = projects store_with_array_writers /\
     objs w' = objs store_with_array_writers /\
     snapshots w' = snapshots store_with_array_writers
                    ++ snapshots_left store_with_array_writers
                         (listeners store_with_array_writers) /\
     new_events store_with_array_writers w' =
       imap (invocation store_with_array_writers)
            (listeners store_with_array_writers)) /\
  (exists w',
     updateListeners 5
       (push_new_project "Build API" "Design REST layer" 3%Z store_with_meddler)
       = Some w' /\
     projects w' = [0] /\
     objs w' = alter (set_status FINISHED) 0
                 (objs (push_new_project "Build API" "Design REST layer" 3%Z
                          store_with_meddler))).
Proof.
  split.
  - apply (proj1 (snapshot_isolation_is_shallow 5 store_with_array_writers)).
    + reflexivity.
    + vm_compute. lia.
  - apply (proj2 (snapshot_isolation_is_shallow 5
               (push_new_project "Build API" "Design REST layer" 3%Z
                  store_with_meddler)) 1 0 (set_status FINISHED) 0).
    + reflexivity.
    + reflexivity.
    + lia.
Defined.

(** ** The notification pass as the methods use it *)


Lemma notify_passive fuel w :
  passive_store w = true ->
  length (listeners w) < fuel ->
  updateListeners fuel w =
  Some (mkWorld (objs w) (projects w)
          (snapshots w ++ snapshots_left w (listeners w))
          (listeners w) (Math_random w) (draws w)
          (trace w ++ imap (invocation w) (listeners w))).
Proof.
  intros Hw Hfuel.
  destruct (passive_pass fuel w Hw Hfuel) as (w' & Hrun & Hpass).
  rewrite Hrun, (pass_passive _ _ _ Hw Hpass), drop_0. reflexivity.
Qed.

(** ** moveProject *)

Lemma has_id_spec w projectId r :
  has_id w projectId r = true <->
  exists prj, objs w !! r = Some prj /\ id prj = projectId.
Proof.
  unfold has_id. destruct (objs w !! r) as [prj|].
  - rewrite String.eqb_eq. split; [eauto|]. intros (prj' & [= <-] & H). exact H.
  - split; [discriminate|]. intros (prj' & [=] & _).
Qed.

Lemma find_unknown_id w projectId :
  projectId ∉ ids w ->
  List.find (has_id w projectId) (projects w) = None.
Proof.
  unfold ids, tasks. induction (projects w) as [|r rs IH]; simpl; [reflexivity|].
  intros Hnot. destruct (has_id w projectId r) eqn:Hid.
  - apply has_id_spec in Hid as (prj & Hobj & Hprj). exfalso. apply Hnot.
    rewrite Hobj. simpl. apply elem_of_cons. left. symmetry. exact Hprj.
  - apply IH. intros Hin. apply Hnot.
    destruct (objs w !! r); simpl; [apply elem_of_cons; right|]; exact Hin.
Qed.

Lemma find_project_Some w projectId prj :
  find_project w projectId = Some prj ->
  exists r,
    List.find (has_id w projectId) (projects w) = Some r /\
    objs w !! r = Some prj /\ id prj = projectId.
Proof.
  unfold find_project.
  destruct (List.find _ _) as [r|] eqn:Hfind; [|discriminate].
  intros Hobj. exists r. repeat split; auto.
  apply find_some in Hfind as [_ Hid].
  apply has_id_spec in Hid as (prj' & Hobj' & Hprj). congruence.
Qed.


(** ** Identifiers *)

Lemma tasks_push (h : list Project) (rs : list nat) x :
  Forall (fun r => r < length h) rs ->
  omap (fun r => (h ++ [x]) !! r) (rs ++ [length h])
  = omap (fun r => h !! r) rs ++ [x].
Proof.
  intros Hwf. rewrite omap_app. f_equal.
  - induction Hwf as [|r rs Hr Hrs IH]; [reflexivity|]. simpl in IH |- *.
    rewrite lookup_app_l by exact Hr. destruct (h !! r); [f_equal|]; exact IH.
  - simpl. rewrite lookup_app_r by lia. rewrite Nat.sub_diag. reflexivity.
Qed.

Lemma addProject_passive fuel t d p w :
  passive_store w = true ->
  length (listeners w) < fuel ->
  exists w',
    addProject fuel t d p w = Some w' /\
    objs w' = objs w ++ [mkProject (Math_random w (draws w)) t d p ACTIVE] /\
    projects w' = projects w ++ [length (objs w)] /\
    listeners w' = listeners w /\
    Math_random w' = Math_random w /\
    draws w' = S (draws w).
Proof.
  intros Hw Hfuel. eexists. split.
  - apply (notify_passive fuel (push_new_project t d p w) Hw Hfuel).
  - repeat split.
Qed.

(** The store keeps a task under an id that is already taken when the
    generator repeats itself. *)
Example repeated_draw_is_stored_twice :
  ids <$> addProjects 5 [("Build API", "Design REST layer", 3%Z);
                         ("Write tests", "Cover the store", 2%Z)]
            (getInstance stuck_random)
  = Some ["0.5"; "0.5"].
Proof. reflexivity. Qed.

(** * Properties of the drag protocol *)

Lemma getData_setData format data dt :
  getData format (setData format data dt) = data.
Proof.
  unfold getData, setData. simpl.
  induction (items dt) as [|[k v] its IH]; simpl.
  - rewrite String.eqb_refl. reflexivity.
  - destruct (String.eqb k format) eqn:Hk; simpl; [exact IH|].
    rewrite Hk. exact IH.
Qed.

Lemma dragover_makes_no_call (this : ProjectList) event :
  exists this',
    dragOverHandler this event = Some (this', event, []) /\ this' = this
    \/ dragOverHandler this event = Some (this', preventDefault event, []) /\
       type this' = type this.
Proof.
  simpl. unfold ProjectList_dragOverHandler.
  destruct (dataTransfer event) as [dt|]; [|eauto].
  destruct (types dt !! 0) as [t|]; [|eauto].
  destruct (String.eqb t "text/plain"); eauto.
Qed.

Lemma dragovers_then n rest pg dt :
  exists pg',
    deliver_all (repeat (ToList on_dragover) n ++ rest) pg dt
    = deliver_all rest pg' dt /\
    source pg' = source pg /\ type (target pg') = type (target pg).
Proof.
  revert pg. induction n as [|n IH]; intros pg; simpl; [eauto|].
  destruct (dragover_makes_no_call (target pg) (mkDragEvent dt false))
    as (this' & [[Hrun Hthis]|[Hrun Hthis]]); simpl in Hrun; rewrite Hrun; simpl;
    destruct (IH (mkPage (source pg) this')) as (pg' & Hall & Hs & Ht);
    exists pg'; rewrite Hall; simpl in Hs, Ht; rewrite Hs, Ht;
    (split; [destruct (deliver_all rest pg' dt) as [[[? ?] ?]|]; reflexivity|]);
    split; congruence.
Qed.

(** ** The drop *)

(** C7: the drop handler of a list makes exactly one store call,
    [moveProject] with the ["text/plain"] data of the gesture and with the
    status of the list ([ACTIVE] for the active list, [FINISHED] for the
    finished one); no other handler makes a store call; and a gesture that
    starts on a card and is dropped on a list calls [moveProject] once with
    the card's id, however many [dragover] events came before the drop. *)
Theorem drop_calls_moveProject_exactly_once :
  (forall (this : ProjectList) dt prevented,
     dropHandler this (mkDragEvent (Some dt) prevented)
     = Some (this, mkDragEvent (Some dt) prevented,
             [MoveProject (getData "text/plain" dt) (target_status this)])) /\
  (forall assigned cl children,
     target_status (mkProjectList active assigned cl children) = ACTIVE /\
     target_status (mkProjectList finished assigned cl children) = FINISHED) /\
  (forall (this : ProjectItem) (l : ProjectList) event,
     calls_of (dragStartHandler this event) = [] /\
     calls_of (dragEndHandler this event) = [] /\
     calls_of (dragOverHandler l event) = [] /\
     calls_of (dragLeaveHandler l event) = []) /\
  (forall (it : ProjectItem) (l : ProjectList) dt n,
     exists pg' dt',
       deliver_all
         (ToItem on_dragstart :: repeat (ToList on_dragover) n
          ++ [ToList on_drop; ToItem on_dragend])
         (mkPage it l) (Some dt)
       = Some (pg', dt', [MoveProject (id (project it)) (target_status l)])).
Proof.
  split; [reflexivity|]. split; [split; reflexivity|]. split.
  - intros this l event. repeat split.
    + simpl. unfold ProjectItem_dragStartHandler.
      destruct (dataTransfer event); reflexivity.
    + destruct (dragover_makes_no_call l event) as (l' & [[-> _]|[-> _]]);
        reflexivity.
  - intros it l dt n. simpl.
    destruct (dragovers_then n [ToList on_drop; ToItem on_dragend] (mkPage it l)
                (Some (set_effectAllowed "move"
                         (setData "text/plain" (id (project it)) dt))))
      as (pg' & Hall & Hs & Ht).
    rewrite Hall. simpl.
    unfold set_effectAllowed, getData. simpl.
    pose proof (getData_setData "text/plain" (id (project it)) dt) as Hget.
    unfold getData, setData in Hget. simpl in Hget. rewrite Hget.
    unfold target_status. rewrite Ht. simpl. eauto.
Qed.

(** ** The handshake *)

(** C8: on [dragover] the list cancels the event and adds the class
    ["droppable"] exactly when the first declared format is ["text/plain"],
    and otherwise leaves the event and itself as they were.  Consequently a
    gesture with another label never triggers [moveProject]: no [dragover] of
    it is cancelled, so the browser, which fires [drop] only after a
    cancelled [dragover], delivers none, whatever the pointer does; the drop
    handler itself makes its call on every drop event it is handed. *)
Theorem dragover_accepts_only_plain_text_label :
  (forall (this : ProjectList) event,
     label event = Some "text/plain" ->
     dragOverHandler this event
     = Some (with_classList (classList_add "droppable" (ul_classList this)) this,
             preventDefault event, []) /\
     classList_contains "droppable"
       (classList_add "droppable" (ul_classList this)) = true /\
     defaultPrevented (preventDefault event) = true) /\
  (forall (this : ProjectList) event,
     label event <> Some "text/plain" ->
     dragOverHandler this event = Some (this, event, [])) /\
  (forall (this : ProjectList) dt prevented,
     calls_of (dropHandler this (mkDragEvent (Some dt) prevented))
     = [MoveProject (getData "text/plain" dt) (target_status this)]) /\
  (forall acts pg dt,
     label (mkDragEvent dt false) <> Some "text/plain" ->
     exists pg', browser acts false pg dt = Some (pg', dt, [])).
Proof.
  split; [|split; [|split]].
  - intros this event Hlabel. split; [|split; [|reflexivity]].
    + simpl. unfold ProjectList_dragOverHandler. unfold label in Hlabel.
      destruct (dataTransfer event) as [dt|]; [|discriminate].
      rewrite Hlabel. reflexivity.
    + unfold classList_add.
      destruct (classList_contains "droppable" (ul_classList this)) eqn:Hc;
        [exact Hc|].
      unfold classList_contains. rewrite existsb_app. simpl.
      apply orb_true_r.
  - intros this event Hlabel. simpl. unfold ProjectList_dragOverHandler.
    unfold label in Hlabel.
    destruct (dataTransfer event) as [dt|]; [|reflexivity].
    destruct (types dt !! 0) as [t|]; [|reflexivity].
    destruct (String.eqb t "text/plain") eqn:Ht; [|reflexivity].
    apply String.eqb_eq in Ht. congruence.
  - reflexivity.
  - intros acts pg dt Hlabel. revert pg.
    assert (Hover : forall l : ProjectList,
              ProjectList_dragOverHandler l (mkDragEvent dt false)
              = Some (l, mkDragEvent dt false, [])).
    { intros l. unfold ProjectList_dragOverHandler. unfold label in Hlabel.
      simpl in *. destruct dt as [dt|]; [|reflexivity].
      destruct (types dt !! 0) as [t|]; [|reflexivity].
      destruct (String.eqb t "text/plain") eqn:Ht; [|reflexivity].
      apply String.eqb_eq in Ht. congruence. }
    induction acts as [|a acts IH]; intros pg; [simpl; eauto|].
    destruct a; simpl; rewrite ?Hover; simpl;
      match goal with |- context [browser acts false ?p dt] =>
        destruct (IH p) as (pg' & ->) end; eauto.
Qed.

Lemma dragover_accepts_only_plain_text_label_witness :
  dragOverHandler finished_list
    (mkDragEvent (Some (setData "text/plain" "abc" empty_transfer)) false)
  = Some (hovered_finished_list,
          mkDragEvent (Some (setData "text/plain" "abc" empty_transfer)) true, [])
  /\ dragOverHandler finished_list (mkDragEvent (Some html_transfer) false)
     = Some (finished_list, mkDragEvent (Some html_transfer) false, [])
  /\ exists pg',
       browser [Over; Over; Release] false (mkPage abc_item finished_list)
         (Some html_transfer)
       = Some (pg', Some html_transfer, []).
Proof.
  pose proof dragover_accepts_only_plain_text_label as (Hyes & Hno & _ & Hgesture).
  split; [|split].
  - apply (Hyes finished_list
             (mkDragEvent (Some (setData "text/plain" "abc" empty_transfer)) false)).
    reflexivity.
  - apply (Hno finished_list (mkDragEvent (Some html_transfer) false)).
    discriminate.
  - apply (Hgesture [Over; Over; Release] (mkPage abc_item finished_list)
             (Some html_transfer)).
    discriminate.
Defined.

(** ** The indicator after a drop *)

Lemma projectsListener_keeps_classList this projects :
  ul_classList (projectsListener this projects) = ul_classList this.
Proof. reflexivity. Qed.

(** C9, the code at the failing input: a card is dragged over the
    finished list, which gets the class ["droppable"], and is dropped there.
    The drop handler calls [moveProject] and leaves the class list alone, and
    so does the list's store callback when it renders the new snapshot: the
    class ["droppable"] is still on the list after the drop. *)
Theorem drop_leaves_droppable_indicator :
  exists pg' dt',
    deliver_all [ToItem on_dragstart; ToList on_dragover; ToList on_drop;
                 ToItem on_dragend]
      (mkPage abc_item finished_list) (Some empty_transfer)
    = Some (pg', dt', [MoveProject "abc" FINISHED]) /\
    ul_classList (target pg') = ["droppable"] /\
    ul_classList
      (projectsListener (target pg')
         [mkProject "abc" "Build API" "Design REST layer" 3%Z FINISHED])
    = ["droppable"] /\
    ~ drop_removes_indicator hovered_finished_list
        (mkDragEvent (Some (setData "text/plain" "abc" empty_transfer)) false).
Proof.
  eexists _, _. split; [reflexivity|]. split; [reflexivity|].
  split; [reflexivity|].
  intros H. specialize (H _ _ _ eq_refl). discriminate H.
Qed.

(** End-to-end scenario D of the specification: the card of the task created
    in scenario A is dragged over the finished list twice and dropped there. *)
Example scenario_D :
  exists pg' dt' w',
    deliver_all [ToItem on_dragstart; ToList on_dragover; ToList on_dragover;
                 ToList on_drop; ToItem on_dragend]
      (mkPage (mkProjectItem
                 (mkProject "0.7" "Build API" "Design REST layer" 3%Z ACTIVE))
              finished_list)
      (Some empty_transfer)
    = Some (pg', dt', [MoveProject "0.7" FINISHED]) /\
    perform 5 (MoveProject "0.7" FINISHED) store_after_scenario_A = Some w' /\
    tasks w' = [mkProject "0.7" "Build API" "Design REST layer" 3%Z FINISHED].
Proof. eexists _, _, _. repeat split; reflexivity. Qed.

(** * Further properties of the store *)

(** ** Nothing is ever removed *)

Lemma grows_refl w : grows w w.
Proof. unfold grows. repeat split; auto. Qed.

Lemma grows_trans w1 w2 w3 : grows w1 w2 -> grows w2 w3 -> grows w1 w3.
Proof.
  intros (A1 & A2 & A3 & A4 & A5 & A6 & A7 & A8) (B1 & B2 & B3 & B4 & B5 & B6 & B7 & B8).
  unfold grows. repeat split; try (etrans; eassumption); try lia; auto;
    congruence.
Qed.

Lemma wf_alter f r w objs' :
  objs' = alter f r (objs w) -> wf w ->
  Forall (fun r => r < length objs') (projects w).
Proof. intros -> H. unfold wf in H. rewrite length_alter. exact H. Qed.

Lemma grows_arr_write n f w : grows w (arr_write (S n) f w).
Proof.
  unfold grows. simpl. rewrite length_alter. repeat split; auto.
Qed.

Lemma grows_obj_write a i f w : grows w (obj_write a i f w).
Proof.
  unfold obj_write. destruct (arr_get w a !! i) as [r|]; [|apply grows_refl].
  unfold grows. simpl. rewrite length_alter. repeat split; auto.
  intros H. unfold wf. simpl. eapply wf_alter; eauto.
Qed.

Lemma grows_addListener l w : grows w (addListener l w).
Proof.
  unfold grows. simpl. repeat split; auto. apply prefix_app_r. reflexivity.
Qed.

Lemma grows_push_new_project t d p w : grows w (push_new_project t d p w).
Proof.
  unfold grows. simpl. rewrite length_app. simpl.
  repeat split; auto; try lia; try (apply prefix_app_r; reflexivity).
  intros H. unfold wf in *. simpl. rewrite length_app. simpl.
  apply Forall_app. split.
  - eapply Forall_impl; [exact H|]. simpl. intros; lia.
  - constructor; [lia|constructor].
Qed.

Lemma grows_write_status r s w : grows w (write_status r s w).
Proof.
  unfold grows. simpl. rewrite length_alter. repeat split; auto.
  intros H. unfold wf. simpl. eapply wf_alter; eauto.
Qed.

Lemma grows_delivered l w : grows w (delivered l w).
Proof.
  unfold grows. simpl. rewrite length_app. simpl.
  repeat split; auto; try lia. apply prefix_app_r. reflexivity.
Qed.

Section AnyCallbacks.
Variable notify : World -> option World.
Hypothesis notify_grows : forall w w', notify w = Some w' -> grows w w'.

Lemma moveProject_with_grows projectId newStatus w w' :
  moveProject_with notify projectId newStatus w = Some w' -> grows w w'.
Proof.
  unfold moveProject_with.
  destruct (List.find _ _) as [r|]; [|intros [= <-]; apply grows_refl].
  destruct (objs w !! r) as [prj|]; [|intros [= <-]; apply grows_refl].
  destruct (decide _); [intros [= <-]; apply grows_refl|].
  intros H. eapply grows_trans; [apply grows_write_status|]. apply notify_grows, H.
Qed.

Lemma addProject_with_grows t d p w w' :
  addProject_with notify t d p w = Some w' -> grows w w'.
Proof.
  unfold addProject_with. intros H.
  eapply grows_trans; [apply grows_push_new_project|]. apply notify_grows, H.
Qed.

Lemma run_body_grows n cs : forall w w',
  run_body notify (S n) cs w = Some w' -> grows w w'.
Proof.
  induction cs as [|c cs IH]; intros w w'; simpl.
  - intros [= <-]. apply grows_refl.
  - destruct c; simpl.
    + intros H. eapply grows_trans; [apply grows_arr_write|]. apply IH, H.
    + intros H. eapply grows_trans; [apply grows_obj_write|]. apply IH, H.
    + intros H. eapply grows_trans; [apply grows_addListener|]. apply IH, H.
    + destruct (addProject_with notify t d p w) as [w1|] eqn:H1; [|discriminate].
      intros H. eapply grows_trans; [eapply addProject_with_grows, H1|]. apply IH, H.
    + destruct (moveProject_with notify projectId newStatus w) as [w1|] eqn:H1;
        [|discriminate].
      intros H. eapply grows_trans; [eapply moveProject_with_grows, H1|]. apply IH, H.
Qed.

End AnyCallbacks.

Lemma updateListeners_from_grows fuel : forall i w w',
  updateListeners_from fuel i w = Some w' -> grows w w'.
Proof.
  induction fuel as [|fuel IH]; intros i w w'; simpl; [discriminate|].
  destruct (listeners w !! i) as [l|]; [|intros [= <-]; apply grows_refl].
  pose proof (slice_contents w) as Hc. simpl in Hc. rewrite Hc.
  change (log _ _) with (delivered l w).
  destruct (run_body _ _ _ _) as [w3|] eqn:Hbody; [|discriminate].
  intros H.
  eapply grows_trans; [apply grows_delivered|].
  eapply grows_trans; [|eapply IH, H].
  eapply run_body_grows; [|exact Hbody]. intros ? ?. apply IH.
Qed.

(** X1: whatever the registered callbacks do, re-entrant ones included, a
    call of [addProject] or [moveProject] that returns has removed nothing:
    the task references and the callbacks the store held are still there, in
    the same order, at the front of the new sequences (and [addProject] has
    added at least one task), and every task reference is still allocated. *)
Theorem store_only_grows fuel w w' :
  (forall t d p,
     addProject fuel t d p w = Some w' ->
     grows w w' /\ length (projects w) < length (projects w')) /\
  (forall projectId newStatus,
     moveProject fuel projectId newStatus w = Some w' -> grows w w').
Proof.
  split.
  - intros t d p H. unfold addProject, addProject_with in H.
    apply updateListeners_from_grows in H.
    split; [eapply grows_trans; [apply grows_push_new_project|exact H]|].
    destruct H as ([k Hk] & _). simpl in Hk. rewrite Hk, !length_app. simpl. lia.
  - intros projectId newStatus H.
    eapply moveProject_with_grows; [|exact H].
    intros ? ?. apply updateListeners_from_grows.
Qed.

Lemma store_only_grows_witness :
  (exists w',
     addProject 5 "Build API" "Design REST layer" 3%Z store_with_reentrant_mover
       = Some w' /\
     grows store_with_reentrant_mover w' /\
     length (projects store_with_reentrant_mover) < length (projects w')) /\
  (exists w',
     moveProject 5 "0.7" FINISHED store_after_scenario_A = Some w' /\
     grows store_after_scenario_A w').
Proof.
  split.
  - eexists. split; [reflexivity|].
    apply (proj1 (store_only_grows 5 store_with_reentrant_mover _)
             "Build API" "Design REST layer" 3%Z).
    reflexivity.
  - eexists. split; [reflexivity|].
    apply (proj2 (store_only_grows 5 store_after_scenario_A _) "0.7" FINISHED).
    reflexivity.
Defined.

(** ** moveProject on a store of passive callbacks *)

Lemma find_ext {A} (f g : A -> bool) l :
  (forall x, f x = g x) -> List.find f l = List.find g l.
Proof.
  intros H. induction l as [|x l IH]; simpl; [reflexivity|].
  rewrite H, IH. reflexivity.
Qed.

Lemma has_id_status_write w w' s r projectId r0 :
  objs w' = alter (set_status s) r (objs w) ->
  has_id w' projectId r0 = has_id w projectId r0.
Proof.
  intros Ho. unfold has_id. rewrite Ho.
  destruct (decide (r = r0)) as [<-|Hne].
  - rewrite list_lookup_alter_eq. destruct (objs w !! r); reflexivity.
  - rewrite list_lookup_alter_ne by exact Hne. reflexivity.
Qed.

Lemma moveProject_passive_change fuel projectId newStatus w r prj :
  passive_store w = true ->
  length (listeners w) < fuel ->
  List.find (has_id w projectId) (projects w) = Some r ->
  objs w !! r = Some prj ->
  status prj <> newStatus ->
  exists w',
    moveProject fuel projectId newStatus w = Some w' /\
    objs w' = alter (set_status newStatus) r (objs w) /\
    projects w' = projects w /\
    listeners w' = listeners w /\
    invoked w w' = map name (listeners w).
Proof.
  intros Hw Hfuel Hfind Hobj Hst.
  unfold moveProject, moveProject_with. rewrite Hfind, Hobj.
  destruct (decide (status prj = newStatus)); [contradiction|].
  rewrite (notify_passive fuel (write_status r newStatus w) Hw Hfuel).
  eexists. split; [reflexivity|]. repeat split.
  unfold invoked. erewrite new_events_app by reflexivity.
  apply imap_event_name. reflexivity.
Qed.

Lemma moveProject_passive_same fuel projectId newStatus w :
  (forall r prj,
     List.find (has_id w projectId) (projects w) = Some r ->
     objs w !! r = Some prj -> status prj = newStatus) ->
  moveProject fuel projectId newStatus w = Some w.
Proof.
  intros H. unfold moveProject, moveProject_with.
  destruct (List.find _ _) as [r|] eqn:Hfind; [|reflexivity].
  destruct (objs w !! r) as [prj|] eqn:Hobj; [|reflexivity].
  destruct (decide _) as [|Hne]; [reflexivity|].
  exfalso. apply Hne. eapply H; eauto.
Qed.

(** X2: [moveProject] is idempotent.  In a store of passive callbacks a
    call returns, and repeating the same call on the result changes nothing
    and notifies nobody, whether or not the first call found the task. *)
Theorem moveProject_idempotent fuel projectId newStatus w :
  passive_store w = true ->
  length (listeners w) < fuel ->
  exists w',
    moveProject fuel projectId newStatus w = Some w' /\
    moveProject fuel projectId newStatus w' = Some w' /\
    invoked w' w' = [].
Proof.
  intros Hw Hfuel.
  assert (Hnil : forall w0, invoked w0 w0 = []).
  { intros w0. unfold invoked, new_events. rewrite drop_all. reflexivity. }
  destruct (List.find (has_id w projectId) (projects w)) as [r|] eqn:Hfind.
  2:{ exists w. rewrite moveProject_passive_same; [auto|]. congruence. }
  destruct (objs w !! r) as [prj|] eqn:Hobj.
  2:{ exists w. rewrite moveProject_passive_same; [auto|]. congruence. }
  destruct (decide (status prj = newStatus)) as [Heq|Hne].
  { exists w. rewrite moveProject_passive_same; [auto|]. congruence. }
  destruct (moveProject_passive_change fuel projectId newStatus w r prj
              Hw Hfuel Hfind Hobj Hne) as (w' & Hrun & Ho & Hp & Hl & _).
  exists w'. split; [exact Hrun|]. split; [|apply Hnil].
  apply moveProject_passive_same. intros r' prj'.
  rewrite Hp, (find_ext _ (has_id w projectId))
    by (intros; eapply has_id_status_write; eauto).
  rewrite Hfind. intros [= <-]. rewrite Ho, list_lookup_alter_eq, Hobj.
  intros [= <-]. reflexivity.
Qed.

Lemma moveProject_idempotent_witness :
  exists w',
    moveProject 5 "0.7" FINISHED store_after_scenario_A = Some w' /\
    moveProject 5 "0.7" FINISHED w' = Some w' /\
    invoked w' w' = [].
Proof.
  apply (moveProject_idempotent 5 "0.7" FINISHED store_after_scenario_A).
  - reflexivity.
  - vm_compute. lia.
Defined.

Lemma alter_status_back (h : list Project) r prj s :
  h !! r = Some prj ->
  alter (set_status (status prj)) r (alter (set_status s) r h) = h.
Proof.
  intros Hr. rewrite list_alter_alter_eq. apply list_eq. intros i.
  destruct (decide (r = i)) as [<-|Hne].
  - rewrite list_lookup_alter_eq, Hr. simpl. destruct prj; reflexivity.
  - apply list_lookup_alter_ne, Hne.
Qed.

(** X3: moving a task and moving it back restores every task.  In a store
    of passive callbacks, [moveProject(id, s)] followed by [moveProject] with
    the status the task had leaves the objects, the task sequence and the
    callbacks exactly as they were. *)
Theorem moveProject_there_and_back fuel projectId newStatus w prj :
  passive_store w = true ->
  length (listeners w) < fuel ->
  find_project w projectId = Some prj ->
  exists w1 w2,
    moveProject fuel projectId newStatus w = Some w1 /\
    moveProject fuel projectId (status prj) w1 = Some w2 /\
    objs w2 = objs w /\
    projects w2 = projects w /\
    listeners w2 = listeners w.
Proof.
  intros Hw Hfuel Hprj.
  destruct (find_project_Some _ _ _ Hprj) as (r & Hfind & Hobj & Hid).
  destruct (decide (status prj = newStatus)) as [Heq|Hne].
  - exists w, w. rewrite <- Heq.
    rewrite moveProject_passive_same; [auto|].
    intros r' prj'. rewrite Hfind. intros [= <-]. rewrite Hobj. intros [= <-].
    reflexivity.
  - destruct (moveProject_passive_change fuel projectId newStatus w r prj
                Hw Hfuel Hfind Hobj Hne) as (w1 & Hrun & Ho & Hp & Hl & _).
    destruct (moveProject_passive_change fuel projectId (status prj) w1 r
                (set_status newStatus prj)) as (w2 & Hrun2 & Ho2 & Hp2 & Hl2 & _).
    + unfold passive_store. rewrite Hl. exact Hw.
    + rewrite Hl. exact Hfuel.
    + rewrite Hp, (find_ext _ (has_id w projectId))
        by (intros; eapply has_id_status_write; eauto).
      exact Hfind.
    + rewrite Ho, list_lookup_alter_eq, Hobj. reflexivity.
    + simpl. congruence.
    + exists w1, w2. repeat split; auto; try congruence.
      rewrite Ho2, Ho. apply alter_status_back, Hobj.
Qed.

Lemma moveProject_there_and_back_witness :
  exists w1 w2,
    moveProject 5 "0.7" FINISHED store_after_scenario_A = Some w1 /\
    moveProject 5 "0.7" ACTIVE w1 = Some w2 /\
    objs w2 = objs store_after_scenario_A /\
    projects w2 = projects store_after_scenario_A /\
    listeners w2 = listeners store_after_scenario_A.
Proof.
  apply (moveProject_there_and_back 5 "0.7" FINISHED store_after_scenario_A
           (mkProject "0.7" "Build API" "Design REST layer" 3%Z ACTIVE)).
  - reflexivity.
  - vm_compute. lia.
  - reflexivity.
Defined.

Lemma find_first {A} (f : A -> bool) (l : list A) x :
  List.find f l = Some x ->
  exists k,
    l !! k = Some x /\ f x = true /\
    forall j y, j < k -> l !! j = Some y -> f y = false.
Proof.
  induction l as [|a l IH]; simpl; [discriminate|].
  destruct (f a) eqn:Hfa.
  - intros [= <-]. exists 0. repeat split; auto. intros j y Hj. lia.
  - intros H. destruct (IH H) as (k & Hk & Hfx & Hbefore).
    exists (S k). repeat split; auto.
    intros [|j] y Hj; simpl; [intros [= <-]; exact Hfa|].
    apply Hbefore. lia.
Qed.

(** X4: in a store of passive callbacks, a [moveProject] that changes a
    status changes one object only, the first in the task sequence whose id
    matches: that object gets the new status and keeps its other fields, and
    every other object is left as it is, another task with the same id
    included.  When ids collide, the later task cannot be reached by
    [moveProject]. *)
Theorem moveProject_moves_first_match_only fuel projectId newStatus w prj :
  passive_store w = true ->
  length (listeners w) < fuel ->
  find_project w projectId = Some prj ->
  status prj <> newStatus ->
  exists w' k r,
    moveProject fuel projectId newStatus w = Some w' /\
    projects w !! k = Some r /\
    objs w !! r = Some prj /\
    (forall j r', j < k -> projects w !! j = Some r' ->
                  has_id w projectId r' = false) /\
    objs w' !! r
    = Some (mkProject (id prj) (title prj) (description prj) (people prj)
              newStatus) /\
    (forall r', r' <> r -> objs w' !! r' = objs w !! r').
Proof.
  intros Hw Hfuel Hprj Hne.
  destruct (find_project_Some _ _ _ Hprj) as (r & Hfind & Hobj & Hid).
  destruct (moveProject_passive_change fuel projectId newStatus w r prj
              Hw Hfuel Hfind Hobj Hne) as (w' & Hrun & Ho & _).
  destruct (find_first _ _ _ Hfind) as (k & Hk & _ & Hbefore).
  exists w', k, r. repeat split; auto.
  - rewrite Ho, list_lookup_alter_eq, Hobj. reflexivity.
  - intros r' Hr'. rewrite Ho. apply list_lookup_alter_ne. congruence.
Qed.

Lemma moveProject_moves_first_match_only_witness :
  exists w' k r,
    moveProject 5 "0.5" FINISHED store_with_duplicate_ids = Some w' /\
    projects store_with_duplicate_ids !! k = Some r /\
    objs store_with_duplicate_ids !! r
      = Some (mkProject "0.5" "Build API" "Design REST layer" 3%Z ACTIVE) /\
    (forall j r', j < k -> projects store_with_duplicate_ids !! j = Some r' ->
                  has_id store_with_duplicate_ids "0.5" r' = false) /\
    objs w' !! r
      = Some (mkProject "0.5" "Build API" "Design REST layer" 3%Z FINISHED) /\
    (forall r', r' <> r -> objs w' !! r' = objs store_with_duplicate_ids !! r').
Proof.
  apply (moveProject_moves_first_match_only 5 "0.5" FINISHED
           store_with_duplicate_ids
           (mkProject "0.5" "Build API" "Design REST layer" 3%Z ACTIVE)).
  - reflexivity.
  - vm_compute. lia.
  - reflexivity.
  - discriminate.
Defined.

(** With colliding ids the second task stays active however often the id is
    moved. *)
Example duplicate_id_hides_second_task :
  match moveProject 5 "0.5" FINISHED store_with_duplicate_ids with
  | Some w' => option_map (map status ∘ tasks) (moveProject 5 "0.5" FINISHED w')
  | None => None
  end = Some [FINISHED; ACTIVE].
Proof. reflexivity. Qed.

(** ** Runs of calls *)

Lemma invoked_app w w1 w2 :
  trace w `prefix_of` trace w1 -> trace w1 `prefix_of` trace w2 ->
  invoked w w2 = invoked w w1 ++ invoked w1 w2.
Proof.
  intros [e1 H1] [e2 H2]. unfold invoked.
  rewrite (new_events_app w w1 e1 H1), (new_events_app w1 w2 e2 H2).
  rewrite (new_events_app w w2 (e1 ++ e2)), map_app; [reflexivity|].
  rewrite H2, H1, app_assoc. reflexivity.
Qed.

Lemma addProject_grows fuel t d p w w' :
  addProject fuel t d p w = Some w' -> grows w w'.
Proof.
  unfold addProject, addProject_with. intros H.
  eapply grows_trans; [apply grows_push_new_project|].
  eapply updateListeners_from_grows, H.
Qed.

Lemma addProjects_grows fuel calls : forall w w',
  addProjects fuel calls w = Some w' -> grows w w'.
Proof.
  induction calls as [|[[t d] p] calls IH]; intros w w'; simpl.
  - intros [= <-]. apply grows_refl.
  - destruct (addProject fuel t d p w) as [w2|] eqn:H2; [|discriminate].
    intros H. eapply grows_trans; [|apply IH, H].
    eapply addProject_grows, H2.
Qed.

(** X5: in a store of passive callbacks, a run of [n] [addProject] calls
    returns, adds [n] tasks, and invokes the registered callbacks [n] times
    over, each time all of them in registration order. *)
Theorem addProjects_notifies_all_per_call fuel calls w :
  passive_store w = true ->
  length (listeners w) < fuel ->
  exists w',
    addProjects fuel calls w = Some w' /\
    invoked w w' = mjoin (replicate (length calls) (map name (listeners w))) /\
    length (projects w') = length (projects w) + length calls /\
    listeners w' = listeners w.
Proof.
  revert w. induction calls as [|[[t d] p] calls IH]; intros w Hw Hfuel.
  - exists w. simpl. repeat split; auto.
    unfold invoked, new_events. rewrite drop_all. reflexivity.
  - pose proof (notify_passive fuel (push_new_project t d p w) Hw Hfuel) as Hrun.
    simpl in Hrun.
    match type of Hrun with _ = Some ?x => set (w1 := x) in * end.
    destruct (IH w1) as (w' & Hruns & Hinv & Hlen & Hls); [exact Hw|exact Hfuel|].
    exists w'. split; [|split; [|split]].
    + simpl. unfold addProject, addProject_with. rewrite Hrun. exact Hruns.
    + rewrite (invoked_app w w1 w').
      * rewrite Hinv. simpl. f_equal.
        unfold invoked. rewrite (new_events_app w w1 _ eq_refl).
        apply imap_event_name. reflexivity.
      * simpl. apply prefix_app_r. reflexivity.
      * destruct (addProjects_grows _ _ _ _ Hruns) as (_ & _ & Ht & _). exact Ht.
    + rewrite Hlen. simpl. rewrite length_app. simpl. lia.
    + rewrite Hls. reflexivity.
Qed.

Lemma addProjects_notifies_all_per_call_witness :
  exists w',
    addProjects 5 [("Build API", "Design REST layer", 3%Z);
                   ("Write tests", "Cover the store", 2%Z)]
      store_with_three_listeners = Some w' /\
    invoked store_with_three_listeners w'
      = mjoin (replicate 2 (map name (listeners store_with_three_listeners))) /\
    length (projects w') = length (projects store_with_three_listeners) + 2 /\
    listeners w' = listeners store_with_three_listeners.
Proof.
  apply (addProjects_notifies_all_per_call 5
           [("Build API", "Design REST layer", 3%Z);
            ("Write tests", "Cover the store", 2%Z)]
           store_with_three_listeners).
  - reflexivity.
  - vm_compute. lia.
Defined.

(** ** Re-entrant callbacks *)

Lemma reentrant_addProject_diverges_from fuel k l t d p rest : forall i w,
  i <= k ->
  listeners w !! k = Some l ->
  body l = CallAddProject t d p :: rest ->
  forallb nonreentrant_listener (take k (listeners w)) = true ->
  updateListeners_from fuel i w = None.
Proof.
  induction fuel as [|fuel IH]; intros i w Hik Hk Hbody Hbefore; [reflexivity|].
  simpl. destruct (decide (i = k)) as [->|Hne].
  - rewrite Hk, Hbody. simpl. unfold addProject_with.
    rewrite IH; [reflexivity|lia|exact Hk|exact Hbody|exact Hbefore].
  - assert (Hlt : i < k) by lia.
    destruct (lookup_lt_is_Some_2 (listeners w) i) as [li Hli].
    { apply lookup_lt_Some in Hk. lia. }
    rewrite Hli.
    assert (Hnr : nonreentrant_listener li = true).
    { rewrite forallb_forall in Hbefore. apply Hbefore.
      apply list_elem_of_In. eapply list_elem_of_lookup_2.
      rewrite lookup_take_lt by exact Hlt. exact Hli. }
    rewrite run_body_nonreentrant by exact Hnr.
    pose proof (slice_contents w) as Hc. simpl in Hc. rewrite Hc.
    change (apply_body _ _ _) with (after_listener li w).
    destruct (after_listener_frame li w) as (_ & Hls & _).
    apply IH; [lia| | exact Hbody|].
    + rewrite Hls. apply lookup_app_l_Some, Hk.
    + rewrite Hls, take_app_le by (apply lookup_lt_Some in Hk; lia).
      exact Hbefore.
Qed.

(** X6: the store has no guard against re-entrance.  If a registered
    callback begins by calling [addProject] (and the callbacks registered
    before it do not call back into the store), no notification pass ever
    ends: [addProject] and every [moveProject] that changes a status recurse
    without bound and never return. *)
Theorem reentrant_addProject_never_returns fuel w k l t d p rest :
  listeners w !! k = Some l ->
  body l = CallAddProject t d p :: rest ->
  forallb nonreentrant_listener (take k (listeners w)) = true ->
  (forall t' d' p', addProject fuel t' d' p' w = None) /\
  (forall projectId newStatus prj,
     find_project w projectId = Some prj ->
     status prj <> newStatus ->
     moveProject fuel projectId newStatus w = None).
Proof.
  intros Hk Hbody Hbefore. split.
  - intros t' d' p'. unfold addProject, addProject_with, updateListeners.
    exact (reentrant_addProject_diverges_from fuel k l t d p rest 0
             (push_new_project t' d' p' w) (Nat.le_0_l k) Hk Hbody Hbefore).
  - intros projectId newStatus prj Hprj Hne.
    destruct (find_project_Some _ _ _ Hprj) as (r & Hfind & Hobj & _).
    unfold moveProject, moveProject_with. rewrite Hfind, Hobj.
    destruct (decide _); [contradiction|].
    unfold updateListeners.
    exact (reentrant_addProject_diverges_from fuel k l t d p rest 0
             (write_status r newStatus w) (Nat.le_0_l k) Hk Hbody Hbefore).
Qed.

Lemma reentrant_addProject_never_returns_witness :
  (forall t' d' p', addProject 1000 t' d' p' store_with_reentrant_adder = None) /\
  (forall projectId newStatus prj,
     find_project store_with_reentrant_adder projectId = Some prj ->
     status prj <> newStatus ->
     moveProject 1000 projectId newStatus store_with_reentrant_adder = None).
Proof.
  apply (reentrant_addProject_never_returns 1000 store_with_reentrant_adder 1
           (mkListener 2 [CallAddProject "Again" "One more task" 1%Z;
                          ItemsWrite (@rev nat)])
           "Again" "One more task" 1%Z [ItemsWrite (@rev nat)]).
  - reflexivity.
  - reflexivity.
  - reflexivity.
Defined.

(** * The contract of the store *)

(** ** A pass that returns has reached every callback *)






(** ** Fan-out *)





(** ** addProject *)




(** ** moveProject *)




(** ** The frame of moveProject *)





(** The frame at work on two tasks: only the first changes, and only in
    its status. *)
Example frame_on_two_tasks :
  option_map tasks (moveProject 5 "0.7" FINISHED store_with_two_tasks)
  = Some [mkProject "0.7" "Build API" "Design REST layer" 3%Z FINISHED;
          mkProject "0.77" "Write tests" "Cover the store" 2%Z ACTIVE].
Proof. reflexivity. Qed.

(** ** Identifiers *)

(** C3, counterexample: with a generator that returns the same number
    twice, two [addProject] calls leave two tasks with the id ["0.5"]. *)
Lemma repeated_draw_gives_equal_ids :
  ~ ids_pairwise_distinct 5 [("Build API", "Design REST layer", 3%Z);
                             ("Write tests", "Cover the store", 2%Z)]
      (getInstance stuck_random).
Proof.
  intros H. specialize (H _ eq_refl). vm_compute in H.
  apply NoDup_cons in H as [Hnotin _]. apply Hnotin. constructor.
Qed.

Lemma NoDup_draws (rnd : nat -> string) a n :
  (forall i j, a <= i -> i < j -> j < a + n -> rnd i <> rnd j) ->
  NoDup (map rnd (seq a n)).
Proof.
  intros Hinj. apply NoDup_fmap_2_strong; [|apply NoDup_seq].
  intros i j Hi Hj Heq. apply elem_of_seq in Hi, Hj.
  destruct (Nat.lt_trichotomy i j) as [Hlt|[Heq'|Hgt]]; [|exact Heq'|].
  - exfalso. apply (Hinj i j); [lia|exact Hlt|lia|exact Heq].
  - exfalso. apply (Hinj j i); [lia|exact Hgt|lia|symmetry; exact Heq].
Qed.

(** C3, amended: the [id] of every task is the string
    [Math.random().toString()] returned in the call that created it, and the
    store compares it with nothing.  In a store whose callbacks only touch
    their own array, after any run of [addProject] calls the ids are those
    the store had followed by the strings drawn; they are pairwise distinct
    whenever the ids the store had were, the strings drawn in the calls
    differ from one another, and none of them was an id of the store. *)
Theorem addProject_ids_are_the_random_draws fuel calls w :
  wf w ->
  passive_store w = true ->
  length (listeners w) < fuel ->
  exists w',
    addProjects fuel calls w = Some w' /\
    ids w' = ids w ++ map (Math_random w) (seq (draws w) (length calls)) /\
    (NoDup (ids w) ->
     (forall i j, draws w <= i -> i < j -> j < draws w + length calls ->
                  Math_random w i <> Math_random w j) ->
     (forall i, draws w <= i -> i < draws w + length calls ->
                Math_random w i ∉ ids w) ->
     NoDup (ids w')).
Proof.
  intros Hwf0 Hw0 Hfuel0.
  assert (Hrun : exists w',
            addProjects fuel calls w = Some w' /\
            ids w' = ids w ++ map (Math_random w) (seq (draws w) (length calls))).
  { revert w Hwf0 Hw0 Hfuel0.
    induction calls as [|[[t d] p] calls IH]; intros w Hwf Hw Hfuel.
    - exists w. simpl. rewrite app_nil_r. split; reflexivity.
    - destruct (addProject_passive fuel t d p w Hw Hfuel)
        as (w1 & Hrun & Ho & Hp & Hl & Hr & Hd).
      destruct (IH w1) as (w' & Hruns & Hids).
      + unfold wf. rewrite Ho, Hp, length_app. simpl.
        apply Forall_app. split.
        * eapply Forall_impl; [exact Hwf|]. simpl. intros; lia.
        * constructor; [lia|constructor].
      + unfold passive_store. rewrite Hl. exact Hw.
      + rewrite Hl. exact Hfuel.
      + exists w'. split; [simpl; rewrite Hrun; exact Hruns|].
        rewrite Hids, Hr, Hd. unfold ids at 1, tasks. rewrite Ho, Hp.
        rewrite tasks_push by exact Hwf. rewrite map_app, <- app_assoc.
        reflexivity. }
  destruct Hrun as (w' & Hrun & Hids).
  exists w'. split; [exact Hrun|]. split; [exact Hids|].
  intros Hold Hinj Hfresh. rewrite Hids. apply NoDup_app. split; [exact Hold|].
  split; [|apply NoDup_draws, Hinj].
  intros x Hx Hdraw. apply list_elem_of_fmap in Hdraw as (i & -> & Hi).
  apply elem_of_seq in Hi. apply (Hfresh i); [lia|lia|exact Hx].
Qed.

Lemma addProject_ids_are_the_random_draws_witness :
  exists w',
    addProjects 5 [("Build API", "Design REST layer", 3%Z);
                   ("Write tests", "Cover the store", 2%Z);
                   ("Ship it", "Deploy the board", 1%Z)]
      store_after_scenario_A = Some w' /\
    ids w' = ["0.7"; "0.77"; "0.777"; "0.7777"] /\
    NoDup (ids w').
Proof.
  destruct (addProject_ids_are_the_random_draws 5
              [("Build API", "Design REST layer", 3%Z);
               ("Write tests", "Cover the store", 2%Z);
               ("Ship it", "Deploy the board", 1%Z)]
              store_after_scenario_A) as (w' & Hrun & Hids & Hdistinct).
  - repeat constructor.
  - reflexivity.
  - vm_compute. lia.
  - exists w'. split; [exact Hrun|]. split; [exact Hids|].
    apply Hdistinct.
    + apply NoDup_ListNoDup. repeat constructor. simpl. tauto.
    + intros i j Hi Hij Hj. simpl in *.
      assert (Hcases : (i = 1 /\ j = 2) \/ (i = 1 /\ j = 3) \/ (i = 2 /\ j = 3))
        by lia.
      destruct Hcases as [[-> ->]|[[-> ->]|[-> ->]]]; discriminate.
    + intros i Hi Hj Hin. simpl in *.
      assert (Hcases : i = 1 \/ i = 2 \/ i = 3) by lia.
      apply list_elem_of_In in Hin. simpl in Hin.
      destruct Hcases as [->|[->| ->]]; destruct Hin as [Hin|[]];
        discriminate Hin.
Defined.

(** * Further properties of the views *)

Lemma filter_complement {A} (f g : A -> bool) (l : list A) :
  (forall x, g x = negb (f x)) ->
  List.filter f l ++ List.filter g l ≡ₚ l.
Proof.
  intros H. induction l as [|x l IH]; simpl; [reflexivity|].
  rewrite H. destruct (f x); simpl.
  - constructor. exact IH.
  - rewrite <- Permutation_middle. constructor. exact IH.
Qed.

Lemma elem_of_list_filter {A} (f : A -> bool) (l : list A) x :
  x ∈ List.filter f l <-> x ∈ l /\ f x = true.
Proof. rewrite !list_elem_of_In. apply filter_In. Qed.

Lemma filter_sublist {A} (f : A -> bool) (l : list A) :
  List.filter f l `sublist_of` l.
Proof.
  induction l as [|x l IH]; simpl; [constructor|].
  destruct (f x); constructor; exact IH.
Qed.

(** X7: the two lists split every snapshot between them.  From the same
    snapshot the active list keeps exactly the [ACTIVE] tasks and the
    finished list exactly the [FINISHED] ones, both in the order of the
    snapshot; together they show every task once; and each renders one card
    per task it keeps, whatever it showed before. *)
Theorem lists_partition_the_snapshot ap cl ch ap' cl' ch' projects :
  let a := projectsListener (mkProjectList active ap cl ch) projects in
  let f := projectsListener (mkProjectList finished ap' cl' ch') projects in
  (forall prj, prj ∈ assignedProjects a <-> prj ∈ projects /\ status prj = ACTIVE) /\
  (forall prj, prj ∈ assignedProjects f <-> prj ∈ projects /\ status prj = FINISHED) /\
  assignedProjects a ++ assignedProjects f ≡ₚ projects /\
  assignedProjects a `sublist_of` projects /\
  assignedProjects f `sublist_of` projects /\
  ul_children a = map mkProjectItem (assignedProjects a) /\
  ul_children f = map mkProjectItem (assignedProjects f) /\
  type a = active /\ type f = finished.
Proof.
  simpl. split; [|split; [|split; [|repeat split; apply filter_sublist]]].
  - intros prj. rewrite elem_of_list_filter, bool_decide_eq_true. reflexivity.
  - intros prj. rewrite elem_of_list_filter, bool_decide_eq_true. reflexivity.
  - apply filter_complement. intros x. destruct (status x); reflexivity.
Qed.

(** X8: a moved task shows up in the list it was dropped on.  In a store
    of passive callbacks, after [moveProject(id, s)] with [s] the status of a
    list, the task found under [id] is, with status [s] and otherwise as
    before, among the tasks that list keeps from the store's new sequence. *)
Theorem moved_task_shows_in_target_list fuel projectId w prj (l : ProjectList) :
  passive_store w = true ->
  length (listeners w) < fuel ->
  find_project w projectId = Some prj ->
  exists w',
    moveProject fuel projectId (target_status l) w = Some w' /\
    set_status (target_status l) prj
      ∈ assignedProjects (projectsListener l (tasks w')).
Proof.
  intros Hw Hfuel Hprj.
  destruct (find_project_Some _ _ _ Hprj) as (r & Hfind & Hobj & Hid).
  assert (Hr : r ∈ projects w).
  { apply list_elem_of_In. eapply find_some, Hfind. }
  assert (Hshow : forall w', projects w' = projects w ->
            objs w' !! r = Some (set_status (target_status l) prj) ->
            set_status (target_status l) prj
              ∈ assignedProjects (projectsListener l (tasks w'))).
  { intros w' Hp Ho. simpl. apply elem_of_list_filter. split.
    - unfold tasks. apply list_elem_of_omap.
      exists r. rewrite Hp. auto.
    - unfold target_status. destruct (type l); apply bool_decide_eq_true;
        reflexivity. }
  destruct (decide (status prj = target_status l)) as [Heq|Hne].
  - exists w. split.
    + apply moveProject_passive_same. intros r' prj'. rewrite Hfind.
      intros [= <-]. rewrite Hobj. intros [= <-]. exact Heq.
    + apply Hshow; [reflexivity|]. rewrite Hobj, <- Heq. destruct prj; reflexivity.
  - destruct (moveProject_passive_change fuel projectId (target_status l) w r prj
                Hw Hfuel Hfind Hobj Hne) as (w' & Hrun & Ho & Hp & _).
    exists w'. split; [exact Hrun|]. apply Hshow; [exact Hp|].
    rewrite Ho, list_lookup_alter_eq, Hobj. reflexivity.
Qed.

Lemma moved_task_shows_in_target_list_witness :
  exists w',
    moveProject 5 "0.7" (target_status finished_list) store_after_scenario_A
      = Some w' /\
    set_status (target_status finished_list)
      (mkProject "0.7" "Build API" "Design REST layer" 3%Z ACTIVE)
      ∈ assignedProjects (projectsListener finished_list (tasks w')).
Proof.
  apply (moved_task_shows_in_target_list 5 "0.7" store_after_scenario_A
           (mkProject "0.7" "Build API" "Design REST layer" 3%Z ACTIVE)
           finished_list).
  - reflexivity.
  - vm_compute. lia.
  - reflexivity.
Defined.

(** * Further properties of the drag protocol *)

Lemma classList_remove_absent token cl :
  classList_contains token cl = false -> classList_remove token cl = cl.
Proof.
  unfold classList_contains, classList_remove.
  induction cl as [|t cl IH]; simpl; [reflexivity|].
  intros H. apply orb_false_iff in H as [Ht Hcl].
  rewrite String.eqb_sym, Ht. simpl. rewrite IH by exact Hcl. reflexivity.
Qed.

Lemma classList_remove_add token cl :
  classList_contains token cl = false ->
  classList_remove token (classList_add token cl) = cl.
Proof.
  intros H. unfold classList_add. rewrite H.
  unfold classList_remove. rewrite List.filter_app. simpl.
  rewrite String.eqb_refl. simpl. rewrite app_nil_r.
  apply classList_remove_absent, H.
Qed.

Lemma classList_add_present token cl :
  classList_contains token (classList_add token cl) = true.
Proof.
  unfold classList_add. destruct (classList_contains token cl) eqn:H; [exact H|].
  unfold classList_contains. rewrite existsb_app. simpl.
  rewrite String.eqb_refl. apply orb_true_r.
Qed.

Lemma classList_add_idempotent token cl :
  classList_add token (classList_add token cl) = classList_add token cl.
Proof.
  unfold classList_add at 1. rewrite classList_add_present. reflexivity.
Qed.

(** One [dragover] on the list: nothing happens, or the list gets the class
    and the event is cancelled; the gesture's data are not touched. *)
Lemma dragover_outcome pg dt :
  deliver (ToList on_dragover) pg (mkDragEvent dt false)
  = Some (pg, mkDragEvent dt false, []) /\ label (mkDragEvent dt false) <> Some "text/plain"
  \/ deliver (ToList on_dragover) pg (mkDragEvent dt false)
     = Some (mkPage (source pg)
               (with_classList (classList_add "droppable" (ul_classList (target pg)))
                  (target pg)),
             mkDragEvent dt true, []) /\ label (mkDragEvent dt false) = Some "text/plain".
Proof.
  destruct pg as [it l]. unfold deliver, label. simpl.
  unfold ProjectList_dragOverHandler. simpl.
  destruct dt as [dt|]; [|left; split; [reflexivity|discriminate]].
  destruct (types dt !! 0) as [t|]; [|left; split; [reflexivity|discriminate]].
  destruct (String.eqb t "text/plain") eqn:Ht.
  - apply String.eqb_eq in Ht. subst t. right. split; reflexivity.
  - left. split; [reflexivity|]. intros [= ->]. discriminate Ht.
Qed.

Lemma repeated_dragover_step n pg dt :
  deliver_all (repeat (ToList on_dragover) (S n)) pg dt
  = deliver_all [ToList on_dragover] pg dt.
Proof.
  revert pg. induction n as [|n IH]; intros pg; [reflexivity|].
  change (repeat (ToList on_dragover) (S (S n)))
    with (ToList on_dragover :: repeat (ToList on_dragover) (S n)).
  cbn [deliver_all].
  destruct (dragover_outcome pg dt) as [[Hrun _]|[Hrun Hlabel]]; rewrite Hrun.
  - cbn [dataTransfer]. rewrite IH. cbn [deliver_all]. rewrite Hrun. reflexivity.
  - cbn [dataTransfer]. rewrite IH. cbn [deliver_all].
    destruct (dragover_outcome
                (mkPage (source pg)
                   (with_classList
                      (classList_add "droppable" (ul_classList (target pg)))
                      (target pg))) dt) as [[_ Hno]|[Hrun2 _]];
      [contradiction|].
    rewrite Hrun2. cbn [source target with_classList ul_classList type
                        assignedProjects ul_children].
    rewrite classList_add_idempotent. reflexivity.
Qed.

(** X9: however often the list has seen [dragover], one more changes
    nothing: the class ["droppable"] is on the list once, and a run of
    [dragover] events leaves the page, the gesture's data and the store as a
    single one does. *)
Theorem repeated_dragover_is_one_dragover n pg dt :
  deliver_all (repeat (ToList on_dragover) (S n)) pg dt
  = deliver_all [ToList on_dragover] pg dt /\
  exists pg',
    deliver_all [ToList on_dragover] pg dt = Some (pg', dt, []) /\
    source pg' = source pg /\
    ul_classList (target pg')
    = (if decide (label (mkDragEvent dt false) = Some "text/plain")
       then classList_add "droppable" (ul_classList (target pg))
       else ul_classList (target pg)).
Proof.
  split; [apply repeated_dragover_step|].
  cbn [deliver_all].
  destruct (dragover_outcome pg dt) as [[Hrun Hl]|[Hrun Hl]]; rewrite Hrun;
    eexists; (split; [reflexivity|]); split; try reflexivity;
    destruct (decide _); try contradiction; reflexivity.
Qed.

Lemma deliver_all_app ds es : forall pg dt,
  deliver_all (ds ++ es) pg dt
  = match deliver_all ds pg dt with
    | Some (pg1, dt1, calls) =>
        match deliver_all es pg1 dt1 with
        | Some (pg2, dt2, calls') => Some (pg2, dt2, calls ++ calls')
        | None => None
        end
    | None => None
    end.
Proof.
  induction ds as [|d ds IH]; intros pg dt.
  - cbn [app deliver_all].
    destruct (deliver_all es pg dt) as [[[? ?] ?]|]; reflexivity.
  - cbn [app deliver_all].
    destruct (deliver d pg (mkDragEvent dt false)) as [[[pg1 ev1] c1]|];
      [|reflexivity].
    rewrite IH.
    destruct (deliver_all ds pg1 (dataTransfer ev1)) as [[[pg2 dt2] c2]|];
      [|reflexivity].
    destruct (deliver_all es pg2 dt2) as [[[pg3 dt3] c3]|]; [|reflexivity].
    rewrite app_assoc. reflexivity.
Qed.

Lemma single_dragover pg dt :
  deliver_all [ToList on_dragover] pg dt = Some (pg, dt, [])
  \/ deliver_all [ToList on_dragover] pg dt
     = Some (mkPage (source pg)
               (with_classList (classList_add "droppable" (ul_classList (target pg)))
                  (target pg)),
             dt, []).
Proof.
  cbn [deliver_all].
  destruct (dragover_outcome pg dt) as [[Hrun _]|[Hrun _]]; rewrite Hrun;
    [left|right]; reflexivity.
Qed.

(** X10: a hover that ends with [dragleave] leaves no mark.  If the list
    did not carry the class ["droppable"], then after any number of
    [dragover] events followed by [dragleave] the page and the gesture's data
    are exactly as before, and no store call was made, whatever the gesture
    carries. *)
Theorem hover_then_leave_restores_page n pg dt :
  classList_contains "droppable" (ul_classList (target pg)) = false ->
  deliver_all (repeat (ToList on_dragover) n ++ [ToList on_dragleave]) pg dt
  = Some (pg, dt, []).
Proof.
  intros Hclean.
  assert (Hleave0 : deliver_all [ToList on_dragleave] pg dt = Some (pg, dt, [])).
  { destruct pg as [it [ty ap cl0 ch]]. simpl in *.
    rewrite classList_remove_absent by exact Hclean. reflexivity. }
  assert (Hleave1 :
            deliver_all [ToList on_dragleave]
              (mkPage (source pg)
                 (with_classList
                    (classList_add "droppable" (ul_classList (target pg)))
                    (target pg))) dt
            = Some (pg, dt, [])).
  { destruct pg as [it [ty ap cl0 ch]]. simpl in *.
    rewrite classList_remove_add by exact Hclean. reflexivity. }
  destruct n as [|n]; [exact Hleave0|].
  rewrite deliver_all_app, repeated_dragover_step.
  destruct (single_dragover pg dt) as [Hrun|Hrun]; rewrite Hrun.
  - rewrite Hleave0. reflexivity.
  - rewrite Hleave1. reflexivity.
Qed.

Lemma hover_then_leave_restores_page_witness :
  deliver_all (repeat (ToList on_dragover) 3 ++ [ToList on_dragleave])
    (mkPage abc_item finished_list)
    (Some (setData "text/plain" "abc" empty_transfer))
  = Some (mkPage abc_item finished_list,
          Some (setData "text/plain" "abc" empty_transfer), []).
Proof.
  apply (hover_then_leave_restores_page 3 (mkPage abc_item finished_list)
           (Some (setData "text/plain" "abc" empty_transfer))).
  reflexivity.
Defined.

(** ** What [dragstart] puts into the gesture *)

Lemma first_type_after_setData format (data : string)
    (its : list (string * string)) :
  exists t,
    map fst (List.filter (fun it => negb (String.eqb (fst it) format)) its
             ++ [(format, data)]) !! 0 = Some t /\
    String.eqb t format = forallb (fun it => String.eqb (fst it) format) its.
Proof.
  induction its as [|x its IH]; simpl.
  - exists format. split; [reflexivity|apply String.eqb_refl].
  - destruct (String.eqb (fst x) format) eqn:Hx; simpl; [exact IH|].
    exists (fst x). split; [reflexivity|exact Hx].
Qed.

Lemma types_setData_once format data dt :
  List.filter (String.eqb format) (types (setData format data dt)) = [format].
Proof.
  unfold types, setData. simpl.
  induction (items dt) as [|[k v] its IH]; simpl.
  - rewrite String.eqb_refl. reflexivity.
  - destruct (String.eqb k format) eqn:Hk; simpl; [exact IH|].
    rewrite String.eqb_sym, Hk. exact IH.
Qed.

(** X11: a card's own gesture passes the list's label test exactly when
    the gesture's data store held nothing but ["text/plain"] items when the
    drag started (an empty store included).  [setData] appends the id after
    the items of other formats, and the list looks at the first format only:
    with a foreign item in front, the list neither cancels [dragover] nor
    shows the indicator for its own card. *)
Theorem own_card_accepted_iff_only_plain_text it l dt :
  let only_plain :=
    forallb (fun x => String.eqb (fst x) "text/plain") (items dt) in
  deliver_all [ToItem on_dragstart; ToList on_dragover] (mkPage it l) (Some dt)
  = Some (mkPage it
            (if only_plain
             then with_classList (classList_add "droppable" (ul_classList l)) l
             else l),
          Some (set_effectAllowed "move"
                  (setData "text/plain" (id (project it)) dt)),
          []).
Proof.
  intros only_plain. cbn [deliver_all deliver ProjectItem_configure
    ProjectList_configure source target dataTransfer].
  simpl dragStartHandler. unfold ProjectItem_dragStartHandler.
  cbn [dataTransfer defaultPrevented source target].
  simpl dragOverHandler. unfold ProjectList_dragOverHandler.
  cbn [dataTransfer].
  destruct (first_type_after_setData "text/plain" (id (project it)) (items dt))
    as (t & Hhead & Ht).
  change (types (set_effectAllowed "move"
                   (setData "text/plain" (id (project it)) dt)) !! 0 = Some t)
    in Hhead.
  rewrite Hhead. fold only_plain in Ht. rewrite Ht.
  destruct only_plain; reflexivity.
Qed.

Lemma filter_filter_snoc {A} (f : A -> bool) (l : list A) x :
  f x = false -> List.filter f (List.filter f l ++ [x]) = List.filter f l.
Proof.
  intros Hx. rewrite List.filter_app. simpl. rewrite Hx, app_nil_r.
  induction l as [|a l IH]; simpl; [reflexivity|].
  destruct (f a) eqn:Ha; simpl; [rewrite Ha, IH; reflexivity|exact IH].
Qed.

(** X12: [dragstart] writes the card's id and nothing else.  After the
    handler the gesture carries the id of the card's project as its
    ["text/plain"] data, in exactly one item of that format, with the effect
    ["move"]; the items of every other format are the ones it had, in the
    same order; the card is unchanged and no store call is made. *)
Theorem dragstart_writes_the_id_only (it : ProjectItem) dt prevented :
  exists dt',
    dragStartHandler it (mkDragEvent (Some dt) prevented)
    = Some (it, mkDragEvent (Some dt') prevented, []) /\
    getData "text/plain" dt' = id (project it) /\
    effectAllowed dt' = "move" /\
    List.filter (String.eqb "text/plain") (types dt') = ["text/plain"] /\
    List.filter (fun x => negb (String.eqb (fst x) "text/plain")) (items dt')
    = List.filter (fun x => negb (String.eqb (fst x) "text/plain")) (items dt).
Proof.
  eexists. split; [reflexivity|]. repeat split.
  - apply (getData_setData "text/plain" (id (project it)) dt).
  - apply (types_setData_once "text/plain" (id (project it)) dt).
  - simpl. apply filter_filter_snoc. reflexivity.
Qed.

(** ** Drops without a card *)

Lemma getData_absent format dt :
  forallb (fun x => negb (String.eqb (fst x) format)) (items dt) = true ->
  getData format dt = "".
Proof.
  unfold getData. induction (items dt) as [|[k v] its IH]; simpl; [reflexivity|].
  intros H. apply andb_true_iff in H as [Hk Hits].
  apply negb_true_iff in Hk. rewrite Hk. apply IH, Hits.
Qed.

(** X14: a drop that carries no card of the board is harmless.  The drop
    handler passes on whatever [getData("text/plain")] returns, the empty
    string when the gesture has no such item; if no task has that id, the
    store call it makes leaves the store exactly as it was and notifies
    nobody, for every callback registered. *)
Theorem foreign_drop_leaves_store_alone fuel (l : ProjectList) dt prevented w :
  getData "text/plain" dt ∉ ids w ->
  (forallb (fun x => negb (String.eqb (fst x) "text/plain")) (items dt) = true ->
   getData "text/plain" dt = "") /\
  Forall (fun c => perform fuel c w = Some w)
         (calls_of (dropHandler l (mkDragEvent (Some dt) prevented))).
Proof.
  intros Hnot. split; [apply getData_absent|].
  simpl. constructor; [|constructor]. simpl.
  unfold moveProject, moveProject_with.
  rewrite find_unknown_id by exact Hnot. reflexivity.
Qed.

Lemma foreign_drop_leaves_store_alone_witness :
  (forallb (fun x => negb (String.eqb (fst x) "text/plain")) (items html_transfer)
   = true ->
   getData "text/plain" html_transfer = "") /\
  Forall (fun c => perform 5 c store_after_scenario_A = Some store_after_scenario_A)
         (calls_of (dropHandler finished_list
                      (mkDragEvent (Some html_transfer) false))).
Proof.
  apply (foreign_drop_leaves_store_alone 5 finished_list html_transfer false
           store_after_scenario_A).
  intros Hin. apply list_elem_of_In in Hin. vm_compute in Hin.
  destruct Hin as [Hin|[]]. discriminate Hin.
Defined.

(** ** Gestures as the browser delivers them *)

Lemma classList_contains_remove token cl :
  classList_contains token (classList_remove token cl) = false.
Proof.
  unfold classList_contains, classList_remove.
  induction cl as [|t cl IH]; simpl; [reflexivity|].
  destruct (String.eqb t token) eqn:Ht; simpl; [exact IH|].
  rewrite String.eqb_sym, Ht. exact IH.
Qed.

Lemma browser_Over rest acc pg dt :
  browser (Over :: rest) acc pg dt
  = if decide (label (mkDragEvent dt false) = Some "text/plain")
    then browser rest true
           (mkPage (source pg)
              (with_classList
                 (classList_add "droppable" (ul_classList (target pg)))
                 (target pg))) dt
    else browser rest false pg dt.
Proof.
  cbn [browser].
  destruct (dragover_outcome pg dt) as [[Hrun Hl]|[Hrun Hl]]; rewrite Hrun;
    cbn [dataTransfer defaultPrevented];
    destruct (decide _); try contradiction;
    match goal with |- context [browser rest ?a ?p dt] =>
      destruct (browser rest a p dt) as [[[? ?] ?]|] end; reflexivity.
Qed.

Lemma browser_Overs n rest acc pg dt :
  browser (repeat Over (S n) ++ rest) acc pg dt
  = browser (Over :: rest) acc pg dt.
Proof.
  revert acc pg. induction n as [|n IH]; intros acc pg; [reflexivity|].
  change (repeat Over (S (S n)) ++ rest)
    with (Over :: (repeat Over (S n) ++ rest)).
  rewrite browser_Over, !IH, !browser_Over.
  destruct (decide _); [|reflexivity].
  cbn [source target with_classList ul_classList type assignedProjects
       ul_children].
  rewrite classList_add_idempotent. reflexivity.
Qed.

(** X15: with the browser delivering the events, a gesture whose first
    format is ["text/plain"] and which is released over a list after at least
    one [dragover] makes exactly one [moveProject] call, with the gesture's
    id and the list's status; a gesture that leaves the list before the
    release makes none, whatever it carries, and the list ends without the
    class ["droppable"]. *)
Theorem browser_gesture_moves_once_or_not_at_all n pg :
  (forall d,
     label (mkDragEvent (Some d) false) = Some "text/plain" ->
     exists pg',
       browser (repeat Over (S n) ++ [Release]) false pg (Some d)
       = Some (pg', Some d,
               [MoveProject (getData "text/plain" d) (target_status (target pg))])) /\
  (forall dt,
     exists pg',
       browser (repeat Over n ++ [Out; Release]) false pg dt = Some (pg', dt, []) /\
       classList_contains "droppable" (ul_classList (target pg')) = false).
Proof.
  split.
  - intros d Hlabel. rewrite browser_Overs, browser_Over.
    destruct (decide _); [|contradiction]. eexists. reflexivity.
  - intros dt.
    assert (Hout : forall acc pg0,
              exists pg',
                browser [Out; Release] acc pg0 dt = Some (pg', dt, []) /\
                classList_contains "droppable" (ul_classList (target pg')) = false).
    { intros acc pg0. eexists. split; [reflexivity|].
      simpl. apply classList_contains_remove. }
    destruct n as [|n]; [apply Hout|].
    rewrite browser_Overs, browser_Over. destruct (decide _); apply Hout.
Qed.

Lemma browser_gesture_moves_once_or_not_at_all_witness :
  exists pg',
    browser (repeat Over 3 ++ [Release]) false (mkPage abc_item finished_list)
      (Some (setData "text/plain" "abc" empty_transfer))
    = Some (pg', Some (setData "text/plain" "abc" empty_transfer),
            [MoveProject
               (getData "text/plain" (setData "text/plain" "abc" empty_transfer))
               (target_status (target (mkPage abc_item finished_list)))]).
Proof.
  apply (proj1 (browser_gesture_moves_once_or_not_at_all 2
                  (mkPage abc_item finished_list))
           (setData "text/plain" "abc" empty_transfer)).
  reflexivity.
Defined.

(** * Properties of the validation and of the input form *)

Import Validation Input.

Lemma trimStart_blank s : blank s = true -> trimStart s = EmptyString.
Proof.
  induction s as [|c s IH]; simpl; [reflexivity|].
  intros H. apply andb_true_iff in H as [Hc Hs]. rewrite Hc. apply IH, Hs.
Qed.

Lemma trimStart_nonblank s :
  blank s = false ->
  exists c rest, trimStart s = String c rest /\ is_whitespace c = false.
Proof.
  induction s as [|c s IH]; simpl; [discriminate|].
  destruct (is_whitespace c) eqn:Hc; simpl; [exact IH|].
  intros _. exists c, s. split; [reflexivity|exact Hc].
Qed.

Lemma trimEnd_keeps_head c rest :
  is_whitespace c = false -> exists rest', trimEnd (String c rest) = String c rest'.
Proof.
  intros Hc. simpl. destruct (trimEnd rest); rewrite ?Hc; eauto.
Qed.

Lemma trim_empty_iff_blank s :
  (String.length (trim s) =? 0) = blank s.
Proof.
  unfold trim. destruct (blank s) eqn:Hb.
  - rewrite trimStart_blank by exact Hb. reflexivity.
  - destruct (trimStart_nonblank s Hb) as (c & rest & -> & Hc).
    destruct (trimEnd_keeps_head c rest Hc) as (rest' & ->). reflexivity.
Qed.

Lemma num_ge_of_Z a b : num_ge (of_Z a) (of_Z b) = (b <=? a)%Z.
Proof.
  unfold num_ge, of_Z, QArith_base.Qle_bool, QArith_base.inject_Z. simpl.
  rewrite !Z.mul_1_r. reflexivity.
Qed.

Lemma length_at_least s m :
  num_ge (length_of s) (of_Z (Z.of_nat m)) = (m <=? String.length s).
Proof.
  unfold length_of. rewrite num_ge_of_Z.
  destruct (Nat.leb_spec m (String.length s)) as [H|H].
  - apply Z.leb_le. lia.
  - apply Z.leb_gt. lia.
Qed.

Ltac unfold_validate :=
  unfold Validation.validate;
  cbn [Validation.value Validation.required Validation.minLength
       Validation.maxLength Validation.min Validation.max
       Validation.toString Validation.toNumeric andb].

Section Builtins.
Variable ToNumber : string -> JsNumber.
Variable Number_toString : JsNumber -> string.

Local Abbreviation validate := (Validation.validate ToNumber Number_toString).
Local Abbreviation gatherUserInput := (Input.gatherUserInput ToNumber Number_toString).
Local Abbreviation submitHandler := (Input.submitHandler ToNumber Number_toString).

(** X16: [required] adds the test for a non-blank string and nothing
    else: a required string is valid exactly when it has a character that is
    not white space and it passes the remaining constraints; a string of
    white space only (the empty one included) is rejected whatever the other
    constraints say. *)
Theorem required_is_the_nonblank_test s minLength maxLength min max :
  validate (mkValidatable (Str s) (Some true) minLength maxLength min max)
  = negb (blank s)
    && validate (mkValidatable (Str s) None minLength maxLength min max).
Proof.
  unfold_validate.
  rewrite trim_empty_iff_blank.
  destruct (blank s); simpl; [|reflexivity].
  destruct minLength, maxLength, min, max; simpl;
    rewrite ?andb_false_l; reflexivity.
Qed.

(** X17: the rule of the text fields.  With [required] and a [minLength]
    of [m], a string is valid exactly when it is not blank and has at least
    [m] code units; the length is that of the string as typed, white space
    around it included. *)
Theorem required_minLength_rule s m :
  validate (mkValidatable (Str s) (Some true) (Some (of_Z (Z.of_nat m)))
              None None None) = true
  <-> blank s = false /\ m <= String.length s.
Proof.
  unfold_validate.
  rewrite trim_empty_iff_blank, length_at_least.
  rewrite andb_true_iff, negb_true_iff, Nat.leb_le. reflexivity.
Qed.

Lemma num_ge_NaN_l m : num_ge NaN m = false.
Proof. reflexivity. Qed.

Lemma num_ge_NaN_r m : num_ge m NaN = false.
Proof. destruct m as [|[]|]; reflexivity. Qed.

(** X18: the constraints are tied to the type of the value unevenly.  The
    length constraints are skipped for a number, whatever they are; the range
    constraints are applied to a string too, through its conversion to a
    number, so a string that converts to NaN fails any [min] and any [max]. *)
Theorem length_needs_string_range_converts n s r minLength maxLength min max m :
  validate (mkValidatable (Num n) r minLength maxLength min max)
  = validate (mkValidatable (Num n) r None None min max) /\
  (ToNumber s = NaN ->
   validate (mkValidatable (Str s) r minLength maxLength (Some m) max) = false /\
   validate (mkValidatable (Str s) r minLength maxLength min (Some m)) = false).
Proof.
  split.
  - unfold_validate.
    destruct minLength, maxLength; reflexivity.
  - intros Hnan. unfold_validate. unfold num_le. rewrite Hnan.
    rewrite num_ge_NaN_l, num_ge_NaN_r. split.
    + rewrite andb_false_r. destruct max; rewrite ?andb_false_l; reflexivity.
    + apply andb_false_r.
Qed.

Lemma text_rule s :
  validate (mkValidatable (Str s) (Some true) (Some (of_Z 5)) None None None)
  = negb (blank s) && (5 <=? String.length s).
Proof.
  unfold_validate.
  rewrite trim_empty_iff_blank.
  change (of_Z 5) with (of_Z (Z.of_nat 5)). rewrite length_at_least. reflexivity.
Qed.

Lemma people_rule s :
  validate (mkValidatable (Str s) (Some true) None None
              (Some (of_Z 1)) (Some (of_Z 5)))
  = negb (blank s) && num_ge (ToNumber s) (of_Z 1) && num_le (ToNumber s) (of_Z 5).
Proof.
  unfold_validate.
  rewrite trim_empty_iff_blank. reflexivity.
Qed.

Lemma acceptable_text_dec s :
  negb (blank s) && (5 <=? String.length s) = true <-> acceptable_text s.
Proof.
  unfold acceptable_text.
  rewrite andb_true_iff, negb_true_iff, Nat.leb_le. reflexivity.
Qed.

Lemma acceptable_people_dec s :
  negb (blank s) && num_ge (ToNumber s) (of_Z 1) && num_le (ToNumber s) (of_Z 5)
  = true <-> acceptable_people ToNumber s.
Proof.
  unfold acceptable_people.
  rewrite !andb_true_iff, negb_true_iff. tauto.
Qed.

Lemma gatherUserInput_cases this :
  let ok := acceptable_text (titleInputElement this)
            /\ acceptable_text (descriptionInputElement this)
            /\ acceptable_people ToNumber (peopleInputElement this) in
  ok /\ gatherUserInput this
        = (mkProjectInput "" "" "",
           Some (titleInputElement this, descriptionInputElement this,
                 ToNumber (peopleInputElement this)), [])
  \/ ~ ok /\ gatherUserInput this = (this, None, [Alert "Invalid input :("]).
Proof.
  intros ok. unfold ok, Input.gatherUserInput.
  rewrite !text_rule, people_rule.
  rewrite <- !acceptable_text_dec, <- acceptable_people_dec.
  set (bt := negb (blank (titleInputElement this))
             && (5 <=? String.length (titleInputElement this))).
  set (bd := negb (blank (descriptionInputElement this))
             && (5 <=? String.length (descriptionInputElement this))).
  set (bp := negb (blank (peopleInputElement this))
             && num_ge (ToNumber (peopleInputElement this)) (of_Z 1)
             && num_le (ToNumber (peopleInputElement this)) (of_Z 5)).
  destruct bt, bd, bp; cbn [negb orb];
    first [ left; split; [auto|reflexivity]
          | right; split; [intros (H1 & H2 & H3); discriminate|reflexivity] ].
Qed.

(** X19: [gatherUserInput] accepts the form exactly when title and
    description are not blank and have at least 5 code units and the people
    field is not blank and converts to a number from 1 to 5.  It then clears
    the three fields and returns title and description as typed (not trimmed)
    and the converted number, which need not be whole.  Otherwise it returns
    nothing, raises the alert and leaves the fields as they are. *)
Theorem gatherUserInput_accepts_iff this :
  (acceptable_text (titleInputElement this) ->
   acceptable_text (descriptionInputElement this) ->
   acceptable_people ToNumber (peopleInputElement this) ->
   gatherUserInput this
   = (mkProjectInput "" "" "",
      Some (titleInputElement this, descriptionInputElement this,
            ToNumber (peopleInputElement this)), [])) /\
  (~ (acceptable_text (titleInputElement this)
      /\ acceptable_text (descriptionInputElement this)
      /\ acceptable_people ToNumber (peopleInputElement this)) ->
   gatherUserInput this = (this, None, [Alert "Invalid input :("])).
Proof.
  destruct (gatherUserInput_cases this) as [[Hok Hrun]|[Hno Hrun]]; split;
    intros; try exact Hrun; tauto.
Qed.

(** X20: a submit always cancels the event's default action and has one
    effect.  For an acceptable form that is one [addProject] call, with the
    title and description as typed and the people converted to a number, and
    the fields are emptied; for any other form it is the alert, no store call
    is made and the fields keep what was typed. *)
Theorem submitHandler_adds_once_or_alerts this prevented :
  let ok := acceptable_text (titleInputElement this)
            /\ acceptable_text (descriptionInputElement this)
            /\ acceptable_people ToNumber (peopleInputElement this) in
  ok /\ submitHandler this prevented
        = (mkProjectInput "" "" "", true,
           [AddProject (titleInputElement this) (descriptionInputElement this)
              (ToNumber (peopleInputElement this))])
  \/ ~ ok /\ submitHandler this prevented
             = (this, true, [Alert "Invalid input :("]).
Proof.
  intros ok. unfold Input.submitHandler.
  destruct (gatherUserInput_cases this) as [[Hok Hrun]|[Hno Hrun]]; rewrite Hrun.
  - left. split; [exact Hok|reflexivity].
  - right. split; [exact Hno|reflexivity].
Qed.

End Builtins.

Lemma length_needs_string_range_converts_witness :
  Validation.validate digits_ToNumber special_toString
    (mkValidatable (Str "abc") (Some true) None None (Some (of_Z 1)) None) = false /\
  Validation.validate digits_ToNumber special_toString
    (mkValidatable (Str "abc") (Some true) None None None (Some (of_Z 1))) = false.
Proof.
  apply (proj2 (length_needs_string_range_converts digits_ToNumber
                  special_toString NaN "abc" (Some true) None None None None
                  (of_Z 1))).
  reflexivity.
Defined.

Lemma gatherUserInput_accepts_iff_witness :
  Input.gatherUserInput digits_ToNumber special_toString filled_form
  = (mkProjectInput "" "" "",
     Some ("Build API", "Design REST layer", digits_ToNumber "3"), []) /\
  Input.gatherUserInput digits_ToNumber special_toString short_title_form
  = (short_title_form, None, [Alert "Invalid input :("]).
Proof.
  split.
  - apply (proj1 (gatherUserInput_accepts_iff digits_ToNumber special_toString
                    filled_form)).
    + split; [reflexivity|simpl; lia].
    + split; [reflexivity|simpl; lia].
    + repeat split.
  - apply (proj2 (gatherUserInput_accepts_iff digits_ToNumber special_toString
                    short_title_form)).
    intros [[_ Hlen] _]. simpl in Hlen. lia.
Defined.

(** The form of scenario A, submitted. *)
Example submit_scenario_A :
  Input.submitHandler digits_ToNumber special_toString filled_form false
  = (mkProjectInput "" "" "", true,
     [AddProject "Build API" "Design REST layer" (of_Z 3)]).
Proof. reflexivity. Qed.
